(** * Strategic metrics derivation engine (backend-ts/src/metrics.ts)

    A shallow embedding of [classifyColumns], [round2], [clamp], [mean],
    [std] and [computeGrowthMetrics], and the properties of the engine
    that the specification states.

    Modelling conventions.
    - A JavaScript [number] is an exact rational extended with the IEEE
      special values the code can observe: [NaN] (tested by [isNaN]) and
      the two infinities (produced by [Number("Infinity")]).  Arithmetic on
      the special values follows IEEE 754; arithmetic on finite values is
      exact, so binary rounding error, overflow and the sign of zero are
      outside the model.
    - [Math.sqrt] has irrational results on most rationals; it is a
      parameter of [std] and of the engine, and the theorems hold whatever
      it returns, unless they state a hypothesis on it.
    - A [Record<string, T>] is a finite map from strings ([gmap string T]);
      a missing key reads as [undefined], and the order in which an object
      enumerates its keys is outside the model.  Strings are byte strings.
    - A cell of a row is a scalar as JSON stores it, or [undefined]
      ([JSValue]); arrays and objects are not cell values. *)

From Stdlib Require Import Ascii QArith Qabs Qround Lqa.
From stdpp Require Import gmap strings.

(** ** Numbers *)

Inductive number : Type :=
  | NaN : number
  | Infinity (negative : bool) : number
  | Finite (q : Q) : number.

(** Finite results are kept in lowest terms, so that equal results are
    syntactically equal. *)
Definition fin (q : Q) : number := Finite (Qred q).
Definition num (z : Z) : number := Finite (inject_Z z).

Definition is_zero (q : Q) : bool := (Qnum q =? 0)%Z.
Definition is_negative (q : Q) : bool := (Qnum q <? 0)%Z.

Definition isNaN (a : number) : bool :=
  match a with NaN => true | _ => false end.

Definition neg (a : number) : number :=
  match a with
  | NaN => NaN
  | Infinity s => Infinity (negb s)
  | Finite q => fin (- q)
  end.

Definition add (a b : number) : number :=
  match a, b with
  | NaN, _ | _, NaN => NaN
  | Infinity s, Infinity t => if Bool.eqb s t then Infinity s else NaN
  | Infinity s, Finite _ => Infinity s
  | Finite _, Infinity t => Infinity t
  | Finite p, Finite q => fin (p + q)
  end.

Definition sub (a b : number) : number := add a (neg b).

Definition mul (a b : number) : number :=
  match a, b with
  | NaN, _ | _, NaN => NaN
  | Infinity s, Infinity t => Infinity (xorb s t)
  | Infinity s, Finite q | Finite q, Infinity s =>
      if is_zero q then NaN else Infinity (xorb s (is_negative q))
  | Finite p, Finite q => fin (p * q)
  end.

(** Division by a (positive) zero gives an infinity, or [NaN] for 0/0. *)
Definition div (a b : number) : number :=
  match a, b with
  | NaN, _ | _, NaN => NaN
  | Infinity _, Infinity _ => NaN
  | Infinity s, Finite q => Infinity (xorb s (is_negative q))
  | Finite _, Infinity _ => Finite 0
  | Finite p, Finite q =>
      if is_zero q
      then (if is_zero p then NaN else Infinity (is_negative p))
      else fin (p / q)
  end.

Definition Math_abs (a : number) : number :=
  match a with
  | NaN => NaN
  | Infinity _ => Infinity false
  | Finite q => fin (Qabs q)
  end.

(** [a < b]; every comparison with [NaN] is false. *)
Definition lt (a b : number) : bool :=
  match a, b with
  | NaN, _ | _, NaN => false
  | Infinity s, Infinity t => s && negb t
  | Infinity s, Finite _ => s
  | Finite _, Infinity t => negb t
  | Finite p, Finite q => negb (Qle_bool q p)
  end.

(** [a > b] *)
Definition gt (a b : number) : bool := lt b a.

(** [a <= b] *)
Definition le (a b : number) : bool :=
  match a, b with
  | NaN, _ | _, NaN => false
  | Infinity s, Infinity t => s || negb t
  | Infinity s, Finite _ => s
  | Finite _, Infinity t => negb t
  | Finite p, Finite q => Qle_bool p q
  end.

(** [a === b] on numbers *)
Definition strict_eq (a b : number) : bool :=
  match a, b with
  | Infinity s, Infinity t => Bool.eqb s t
  | Finite p, Finite q => Qeq_bool p q
  | _, _ => false
  end.

(** [a !== b] *)
Definition strict_ne (a b : number) : bool := negb (strict_eq a b).

(** [Math.round]: the nearest integer, ties towards +Infinity. *)
Definition Math_round (a : number) : number :=
  match a with
  | Finite q => num (Qfloor (q + (1 # 2)))
  | _ => a
  end.

(** [Math.min(...args)] and [Math.max(...args)]: [NaN] when an argument is
    [NaN], otherwise the scan from +Infinity (resp. -Infinity). *)
Definition Math_min (args : list number) : number :=
  if existsb isNaN args then NaN
  else fold_left (fun lowest x => if lt x lowest then x else lowest)
                 args (Infinity false).

Definition Math_max (args : list number) : number :=
  if existsb isNaN args then NaN
  else fold_left (fun highest x => if gt x highest then x else highest)
                 args (Infinity true).

(** [arr.length] read as a number *)
Definition length_number {A} (arr : list A) : number :=
  num (Z.of_nat (length arr)).

(** ** Cell values and their coercion to numbers *)

Inductive JSValue : Type :=
  | JSUndefined
  | JSNull
  | JSBoolean (b : bool)
  | JSNumber (n : number)
  | JSString (s : string).

(** White space that [Number] strips from both ends of a string: the
    ASCII characters.  Strings are byte strings, so the other Unicode
    white space that JavaScript strips (U+00A0, U+FEFF, ...) is outside
    the model. *)
Definition is_whitespace (c : ascii) : bool :=
  let n := nat_of_ascii c in
  ((9 <=? n) && (n <=? 13) || (n =? 32))%nat.

Fixpoint skip_whitespace (l : list ascii) : list ascii :=
  match l with
  | c :: l' => if is_whitespace c then skip_whitespace l' else l
  | [] => []
  end.

Definition trim (l : list ascii) : list ascii :=
  rev (skip_whitespace (rev (skip_whitespace l))).

(** The value of a character as a digit in the given base, if it is one. *)
Definition digit_value (base : Z) (c : ascii) : option Z :=
  let n := Z.of_nat (nat_of_ascii c) in
  let d :=
    (if (48 <=? n) && (n <=? 57) then n - 48
     else if (97 <=? n) && (n <=? 122) then n - 87
     else if (65 <=? n) && (n <=? 90) then n - 55
     else base)%Z in
  if (d <? base)%Z then Some d else None.

(** Reads the longest run of digits: the number read (continuing [acc]),
    how many digits were read, and what follows. *)
Fixpoint read_digits (base acc : Z) (count : nat) (l : list ascii)
  : Z * nat * list ascii :=
  match l with
  | c :: l' =>
      match digit_value base c with
      | Some d => read_digits base (acc * base + d)%Z (S count) l'
      | None => (acc, count, l)
      end
  | [] => (acc, count, [])
  end.

Definition pow10 (k : Z) : Q :=
  if (k <? 0)%Z then 1 # Z.to_pos (10 ^ (- k)) else inject_Z (10 ^ k).

(** ExponentPart, or nothing, up to the end of the string. *)
Definition parse_exponent (l : list ascii) : option Z :=
  match l with
  | [] => Some 0%Z
  | c :: l' =>
      if Ascii.eqb c "e" || Ascii.eqb c "E" then
        let '(sign, l'') :=
          match l' with
          | "+"%char :: r => (1%Z, r)
          | "-"%char :: r => ((-1)%Z, r)
          | _ => (1%Z, l')
          end in
        match read_digits 10 0 0 l'' with
        | (e, S _, []) => Some (sign * e)%Z
        | _ => None
        end
      else None
  end.

(** StrUnsignedDecimalLiteral *)
Definition parse_unsigned_decimal (l : list ascii) : option number :=
  if String.eqb (String.string_of_list_ascii l) "Infinity" then Some (Infinity false)
  else
    let '(int_part, int_count, rest) := read_digits 10 0 0 l in
    let '(mantissa, frac_count, rest') :=
      match rest with
      | "."%char :: r => read_digits 10 int_part 0 r
      | _ => (int_part, 0%nat, rest)
      end in
    if (int_count + frac_count =? 0)%nat then None
    else
      match parse_exponent rest' with
      | Some e => Some (fin (inject_Z mantissa * pow10 (e - Z.of_nat frac_count)%Z))
      | None => None
      end.

(** NonDecimalIntegerLiteral: 0x, 0o and 0b prefixes, unsigned. *)
Definition parse_non_decimal (l : list ascii) : option number :=
  match l with
  | "0"%char :: p :: r =>
      let base :=
        if Ascii.eqb p "x" || Ascii.eqb p "X" then Some 16%Z
        else if Ascii.eqb p "o" || Ascii.eqb p "O" then Some 8%Z
        else if Ascii.eqb p "b" || Ascii.eqb p "B" then Some 2%Z
        else None in
      match base with
      | Some b =>
          match read_digits b 0 0 r with
          | (v, S _, []) => Some (num v)
          | _ => None
          end
      | None => None
      end
  | _ => None
  end.

(** StringToNumber: the empty or all-blank string is 0, a string that is
    not a numeric literal is [NaN].  A literal is read as its exact value:
    one beyond the range of doubles stays finite here, where JavaScript
    gives an infinity or 0. *)
Definition StringToNumber (s : string) : number :=
  let l := trim (String.list_ascii_of_string s) in
  match l with
  | [] => num 0
  | c :: r =>
      let parsed :=
        match parse_non_decimal l with
        | Some n => Some n
        | None =>
            if Ascii.eqb c "+" then parse_unsigned_decimal r
            else if Ascii.eqb c "-" then neg <$> parse_unsigned_decimal r
            else parse_unsigned_decimal l
        end in
      default NaN parsed
  end.

(** [Number(v)] *)
Definition Number (v : JSValue) : number :=
  match v with
  | JSUndefined => NaN
  | JSNull => num 0
  | JSBoolean b => if b then num 1 else num 0
  | JSNumber n => n
  | JSString s => StringToNumber s
  end.


(** ** Column classifier *)

(** [s.startsWith(kw)] *)
Fixpoint startsWith (s kw : string) {struct kw} : bool :=
  match kw, s with
  | EmptyString, _ => true
  | String a kw', String b s' => Ascii.eqb a b && startsWith s' kw'
  | String _ _, EmptyString => false
  end.

(** [s.includes(kw)]: [kw] occurs in [s] as a contiguous substring. *)
Fixpoint includes (s kw : string) : bool :=
  startsWith s kw ||
  match s with
  | String _ s' => includes s' kw
  | EmptyString => false
  end.

Definition revenue_keywords : list string :=
  ["revenue"; "mrr"; "arr"; "income"; "sales"; "gmv"].
Definition cost_keywords : list string :=
  ["cost"; "expense"; "spend"; "burn"; "cac"].
Definition user_keywords : list string :=
  ["user"; "customer"; "subscriber"; "client"; "account"].
Definition retention_keywords : list string :=
  ["retention"; "churn"; "nrr"; "ndr"].

Record Classification : Type := {
  revenue : list string;
  cost : list string;
  user : list string;
  retention : list string
}.

Definition classifyColumns (numericCols : list string) : Classification :=
  {| revenue :=
       List.filter (fun c => existsb (fun kw => includes c kw) revenue_keywords)
                   numericCols;
     cost :=
       List.filter (fun c => existsb (fun kw => includes c kw) cost_keywords)
                   numericCols;
     user :=
       List.filter (fun c => existsb (fun kw => includes c kw) user_keywords)
                   numericCols;
     retention :=
       List.filter (fun c => existsb (fun kw => includes c kw) retention_keywords)
                   numericCols |}.

(** ** Numeric helpers of the engine *)

Definition round2 (n : number) : number :=
  div (Math_round (mul n (num 100))) (num 100).

(** [clamp(val, lo = 0, hi = 100)]; the engine only calls it with the
    default bounds. *)
Definition clamp (val : number) : number :=
  let lo := num 0 in
  let hi := num 100 in
  Math_max [lo; Math_min [hi; val]].

(** [arr.reduce((a, b) => a + b, 0)] *)
Definition sum (arr : list number) : number := fold_left add arr (num 0).

Definition mean (arr : list number) : number :=
  if (length arr =? 0)%nat then num 0 else div (sum arr) (length_number arr).

(** ** Result records *)

Module ColumnMetrics.
Record t : Type := mk {
  mean : number;
  latest : number;
  min : number;
  max : number;
  total : number;
  avg_growth_rate : option number;
  growth_rates : option (list number)
}.
End ColumnMetrics.

Record MetricsResult : Type := {
  growth_score : number;
  efficiency_score : number;
  pmf_signal : number;
  scalability_index : number;
  capital_efficiency : number;
  metrics_detail : gmap string ColumnMetrics.t;
  trends : gmap string (list number)
}.

(** ** Per-column statistics *)

(** The cell [r[col]]; a missing key reads as [undefined]. *)
Definition cell (r : gmap string JSValue) (col : string) : JSValue :=
  default JSUndefined (r !! col).

(** The column's cells coerced with [Number], those that are [NaN]
    removed (the [map] to [null] and the [filter] of the source in one
    pass). *)
Definition columnVals (data : list (gmap string JSValue)) (col : string)
  : list number :=
  omap (fun r => let v := Number (cell r col) in
                 if isNaN v then None else Some v) data.

(** The loop [for (let i = 1; i < vals.length; i++)] that collects the
    percent changes. *)
Definition pctChanges (vals : list number) : list number :=
  flat_map
    (fun i =>
       match vals !! (i - 1)%nat, vals !! i with
       | Some prev, Some cur =>
           if strict_ne prev (num 0)
           then [mul (div (sub cur prev) (Math_abs prev)) (num 100)]
           else []
       | _, _ => []
       end)
    (seq 1 (length vals - 1)).

(** The [detail] record of a column with surviving values [vals]. *)
Definition columnDetail (vals : list number) : ColumnMetrics.t :=
  let pctChanges := pctChanges vals in
  {| ColumnMetrics.mean := round2 (mean vals);
     ColumnMetrics.latest := round2 (default NaN (last vals));
     ColumnMetrics.min := round2 (Math_min vals);
     ColumnMetrics.max := round2 (Math_max vals);
     ColumnMetrics.total := round2 (sum vals);
     ColumnMetrics.avg_growth_rate :=
       if (1 <? length vals)%nat
       then Some (if (length pctChanges =? 0)%nat then num 0
                  else round2 (mean pctChanges))
       else None;
     ColumnMetrics.growth_rates :=
       if (1 <? length vals)%nat then Some (map round2 pctChanges) else None |}.

(** One iteration of [for (const col of numericCols)] on the pair
    ([metricsDetail], [trends]). *)
Definition columnStep (data : list (gmap string JSValue))
    (acc : gmap string ColumnMetrics.t * gmap string (list number))
    (col : string)
  : gmap string ColumnMetrics.t * gmap string (list number) :=
  let vals := columnVals data col in
  if (length vals =? 0)%nat then acc
  else (<[col := columnDetail vals]> acc.1,
        if (1 <? length vals)%nat then <[col := map round2 vals]> acc.2
        else acc.2).

Definition columnStats (data : list (gmap string JSValue))
    (numericCols : list string)
  : gmap string ColumnMetrics.t * gmap string (list number) :=
  fold_left (columnStep data) numericCols (∅, ∅).

(** ** Composite scores *)

Section Scores.
Variable Math_sqrt : number -> number.
Variable metricsDetail : gmap string ColumnMetrics.t.
Variable numericCols : list string.

(** Population standard deviation, as [std] computes it. *)
Definition std (arr : list number) : number :=
  if (length arr <? 2)%nat then num 0
  else
    let m := mean arr in
    Math_sqrt
      (div (fold_left (fun sum v => add sum (let d := sub v m in mul d d))
                      arr (num 0))
           (length_number arr)).

Definition growthCols : list string :=
  let cls := classifyColumns numericCols in
  if negb (length (revenue cls) =? 0)%nat then revenue cls
  else if negb (length (user cls) =? 0)%nat then user cls
  else take 2 numericCols.

(** The columns of [growthCols] that have an [avg_growth_rate], mapped
    to it. *)
Definition growthRates : list number :=
  omap (fun c => metricsDetail !! c ≫= ColumnMetrics.avg_growth_rate)
       growthCols.

Definition growthScore : number :=
  let avgGrowth :=
    if negb (length growthRates =? 0)%nat then mean growthRates else num 0 in
  clamp (add (num 50) (mul avgGrowth (num 2))).

(** [cols.reduce((s, c) => s + (metricsDetail[c]?.field ?? 0), 0)] *)
Definition sumOver (field : ColumnMetrics.t -> number) (cols : list string)
  : number :=
  fold_left
    (fun s c => add s (default (num 0) (field <$> metricsDetail !! c)))
    cols (num 0).

Definition efficiencyScore : number :=
  let cls := classifyColumns numericCols in
  if negb (length (revenue cls) =? 0)%nat && negb (length (cost cls) =? 0)%nat
  then
    let revTotal := sumOver ColumnMetrics.total (revenue cls) in
    let costTotal := sumOver ColumnMetrics.total (cost cls) in
    if gt costTotal (num 0)
    then clamp (mul (div revTotal costTotal) (num 25))
    else num 65
  else num 65.

(** The [latest] values of the listed columns that have statistics. *)
Definition latestOf (cols : list string) : list number :=
  omap (fun c => ColumnMetrics.latest <$> metricsDetail !! c) cols.

Definition pmfSignal : number :=
  let cls := classifyColumns numericCols in
  let churnCols := List.filter (fun c => includes c "churn") numericCols in
  let pureRetention :=
    List.filter (fun c => negb (includes c "churn")) (retention cls) in
  if negb (length pureRetention =? 0)%nat then
    let retVals := latestOf pureRetention in
    if negb (length retVals =? 0)%nat then clamp (mean retVals) else num 55
  else if negb (length churnCols =? 0)%nat then
    let churnVals := latestOf churnCols in
    if negb (length churnVals =? 0)%nat
    then clamp (sub (num 100) (mul (mean churnVals) (num 10)))
    else num 55
  else if negb (length growthRates =? 0)%nat then
    let consistency :=
      if (1 <? length growthRates)%nat
      then sub (num 100) (Math_min [num 100; mul (std growthRates) (num 2)])
      else num 60 in
    clamp (div (add consistency growthScore) (num 2))
  else num 55.

(** [Math.max(...cols.map((c) => metricsDetail[c]?.avg_growth_rate ?? 0))] *)
Definition maxGrowth (cols : list string) : number :=
  Math_max
    (map (fun c => default (num 0)
                     (metricsDetail !! c ≫= ColumnMetrics.avg_growth_rate))
         cols).

Definition scalabilityIndex : number :=
  let cls := classifyColumns numericCols in
  if negb (length (revenue cls) =? 0)%nat && negb (length (cost cls) =? 0)%nat
  then
    let revGrowth := maxGrowth (revenue cls) in
    let costGrowth := maxGrowth (cost cls) in
    if strict_ne costGrowth (num 0)
    then clamp (add (num 50) (sub revGrowth costGrowth))
    else if gt revGrowth (num 0) then clamp (add (num 50) revGrowth)
    else num 60
  else num 60.

Definition capitalEfficiency : number :=
  let cls := classifyColumns numericCols in
  if negb (length (revenue cls) =? 0)%nat && negb (length (cost cls) =? 0)%nat
  then
    let revLatest := sumOver ColumnMetrics.latest (revenue cls) in
    let costLatest := sumOver ColumnMetrics.latest (cost cls) in
    if gt costLatest (num 0)
    then clamp (mul (div revLatest costLatest) (num 30))
    else num 55
  else num 55.
End Scores.

(** ** The engine *)

Definition computeGrowthMetrics (Math_sqrt : number -> number)
    (data : list (gmap string JSValue)) (numericCols : list string)
  : MetricsResult :=
  if (length data =? 0)%nat || (length numericCols =? 0)%nat then
    {| growth_score := num 0;
       efficiency_score := num 0;
       pmf_signal := num 0;
       scalability_index := num 0;
       capital_efficiency := num 0;
       metrics_detail := ∅;
       trends := ∅ |}
  else
    let stats := columnStats data numericCols in
    let metricsDetail := stats.1 in
    {| growth_score := round2 (growthScore metricsDetail numericCols);
       efficiency_score := round2 (efficiencyScore metricsDetail numericCols);
       pmf_signal := round2 (pmfSignal Math_sqrt metricsDetail numericCols);
       scalability_index := round2 (scalabilityIndex metricsDetail numericCols);
       capital_efficiency := round2 (capitalEfficiency metricsDetail numericCols);
       metrics_detail := metricsDetail;
       trends := stats.2 |}.

(** ** Sample inputs *)

Definition row (cells : list (string * JSValue)) : gmap string JSValue :=
  list_to_map cells.

(** A dataset with a single column, one row per cell. *)
Definition column (name : string) (cells : list JSValue)
  : list (gmap string JSValue) :=
  map (fun v => row [(name, v)]) cells.

(** A dataset with two columns, one row per pair of cells. *)
Definition columns2 (name1 name2 : string) (cells : list (JSValue * JSValue))
  : list (gmap string JSValue) :=
  map (fun vw => row [(name1, vw.1); (name2, vw.2)]) cells.

Definition JSInt (z : Z) : JSValue := JSNumber (num z).

(** A computable stand-in for [Math.sqrt] to run the engine on samples:
    exact on squares of rationals, truncated at 20 decimals otherwise. *)
Definition sqrt_sample (a : number) : number :=
  match a with
  | NaN => NaN
  | Infinity s => if s then NaN else Infinity false
  | Finite q =>
      if is_negative q then NaN
      else
        let d := Zpos (Qden q) in
        fin (Z.sqrt (Qnum q * d * 10 ^ 40) # Z.to_pos (d * 10 ^ 20))
  end.

(** The column of the non-numeric noise example: "12", "abc", null, "15". *)
Definition noisy_signups : list (gmap string JSValue) :=
  column "signups" [JSString "12"; JSString "abc"; JSNull; JSString "15"].

(** A revenue column whose two cells read "Infinity". *)
Definition infinite_revenue : list (gmap string JSValue) :=
  column "revenue" [JSString "Infinity"; JSString "Infinity"].

(** A column with the values 0, 10. *)
Definition zero_then_ten : list (gmap string JSValue) :=
  column "signups" [JSInt 0; JSInt 10].

(** A column that grows by less than a hundredth of a percent per row. *)
Definition slow_growth : list (gmap string JSValue) :=
  column "visits" [JSInt 1000000; JSInt 1000045; JSInt 1000090; JSInt 1000160].

(** A column with one numeric cell among cells that are not numbers. *)
Definition single_signup : list (gmap string JSValue) :=
  column "signups" [JSString "n/a"; JSInt 42; JSUndefined].

(** revenue = [100, 200] and cost = [50, 50]. *)
Definition revenue_and_cost : list (gmap string JSValue) :=
  columns2 "revenue" "cost" [(JSInt 100, JSInt 50); (JSInt 200, JSInt 50)].

(** revenue = [100] and cost = [300]. *)
Definition costly : list (gmap string JSValue) :=
  columns2 "revenue" "cost" [(JSInt 100, JSInt 300)].

(** Three retention columns with one row: 80, 80 and 81. *)
Definition retention_cohorts : list (gmap string JSValue) :=
  [row [("retention_d1", JSInt 80); ("retention_d7", JSInt 80);
        ("retention_d30", JSInt 81)]].

(** A retention column without a numeric cell next to a churn column. *)
Definition silent_retention : list (gmap string JSValue) :=
  columns2 "nrr" "churn" [(JSString "n/a", JSInt 2)].

(** A column whose two cells read "Infinity" and "-Infinity". *)
Definition both_infinities : list (gmap string JSValue) :=
  column "balance" [JSString "Infinity"; JSString "-Infinity"].

(** ** The caller's column detection (routes/data.ts, [parseFile])

    The two detection steps of [parseFile], on the normalised records and
    column names.  As for [Number], the white space that [trim] strips is
    the ASCII white space. *)

(** The test inside [records.some]: a number, or a string that [Number]
    reads as a number and that is not blank. *)
Definition isNumericCell (v : JSValue) : bool :=
  match v with
  | JSNumber _ => true
  | JSString s =>
      negb (isNaN (Number (JSString s)))
      && negb (length (trim (String.list_ascii_of_string s)) =? 0)%nat
  | _ => false
  end.

(** [const numericCols = columns.filter(...)] *)
Definition detectNumericCols (records : list (gmap string JSValue))
    (columns : list string) : list string :=
  List.filter (fun col => existsb (fun r => isNumericCell (cell r col)) records)
              columns.

Definition periodKeywords : list string :=
  ["date"; "month"; "period"; "time"; "year"; "quarter"].

(** [const periodCol = columns.find(...) ?? null] *)
Definition detectPeriodCol (columns : list string) : option string :=
  List.find (fun c => existsb (fun kw => includes c kw) periodKeywords) columns.

(** ** More sample inputs *)

(** Two columns over three rows; the second row has no numeric cell. *)
Definition two_metrics : list (gmap string JSValue) :=
  columns2 "mrr" "cac"
           [(JSInt 100, JSInt 40); (JSString "n/a", JSNull);
            (JSInt 125, JSString "50")].

(** A revenue column that grows by a quarter. *)
Definition quarter_growth : list (gmap string JSValue) :=
  column "revenue" [JSInt 100; JSInt 125].


(** Cells that no column reads as a number. *)
Definition no_numbers : list (gmap string JSValue) :=
  columns2 "revenue" "churn" [(JSString "n/a", JSString "-"); (JSUndefined, JSString "?")].

(** A file with a period column and two metrics, one of them text. *)
Definition parsed_file : list (gmap string JSValue) :=
  [row [("month", JSString "2024-01"); ("mrr", JSString "1200");
        ("notes", JSString "launch")];
   row [("month", JSString "2024-02"); ("mrr", JSInt 1500);
        ("notes", JSString "")]].

(** ** Vocabulary of the statements *)

Definition is_finite (a : number) : bool :=
  match a with Finite _ => true | _ => false end.

(** The rational behind a finite number. *)
Definition to_Q (a : number) : Q :=
  match a with Finite q => q | _ => 0%Q end.

Definition Qsum (qs : list Q) : Q := foldr Qplus 0%Q qs.

(** [kw] occurs in [s]: [s = pre ++ kw ++ post]. *)
Definition substring (kw s : string) : Prop :=
  ∃ pre post : string, s = (pre +:+ kw +:+ post)%string.

(** The adjacent pairs [(v[i-1], v[i])] of a series, in order. *)
Definition adjacent {A} (vals : list A) : list (A * A) :=
  zip vals (tail vals).

(** The percent change of one adjacent pair. *)
Definition pctChange (pair : number * number) : number :=
  mul (div (sub pair.2 pair.1) (Math_abs pair.1)) (num 100).

(** A column name matches a keyword set when one of the keywords occurs
    in it. *)
Definition matches (keywords : list string) (c : string) : Prop :=
  ∃ kw, kw ∈ keywords ∧ substring kw c.

(** The result of the degenerate path. *)
Definition zeroResult : MetricsResult :=
  {| growth_score := num 0;
     efficiency_score := num 0;
     pmf_signal := num 0;
     scalability_index := num 0;
     capital_efficiency := num 0;
     metrics_detail := ∅;
     trends := ∅ |}.

(** A score is within bounds when it is a finite number of [0, 100]. *)
Definition within_bounds (a : number) : Prop :=
  ∃ q, a = Finite q ∧ (0 <= q <= 100)%Q.

(** The result when no declared column has a numeric cell. *)
Definition defaultResult : MetricsResult :=
  {| growth_score := num 50;
     efficiency_score := num 65;
     pmf_signal := num 55;
     scalability_index := num 60;
     capital_efficiency := num 55;
     metrics_detail := ∅;
     trends := ∅ |}.

(** * Properties *)

(** ** The per-column loop *)

Lemma columnStep_detail data acc col c :
  (columnStep data acc col).1 !! c =
    if decide (c = col ∧ columnVals data col ≠ [])
    then Some (columnDetail (columnVals data col)) else acc.1 !! c.
Proof.
  unfold columnStep. destruct (columnVals data col) as [|v vs]; simpl.
  - case_decide as H; [by destruct H|done].
  - rewrite lookup_insert.
    destruct (decide (col = c)) as [->|Hne].
    + by rewrite decide_True.
    + rewrite decide_False; [done|]. intros [-> _]. done.
Qed.

Lemma columnStep_trends data acc col c :
  (columnStep data acc col).2 !! c =
    if decide (c = col ∧ (1 < length (columnVals data col))%nat)
    then Some (map round2 (columnVals data col)) else acc.2 !! c.
Proof.
  unfold columnStep. destruct (columnVals data col) as [|v [|w vs]]; simpl.
  - case_decide as H; [destruct H; lia|done].
  - case_decide as H; [destruct H; lia|done].
  - rewrite lookup_insert.
    destruct (decide (col = c)) as [->|Hne].
    + rewrite decide_True; [done|]. split; [done|lia].
    + rewrite decide_False; [done|]. intros [-> _]. done.
Qed.

Lemma fold_columnStep_detail data cols acc c :
  (fold_left (columnStep data) cols acc).1 !! c =
    if decide (c ∈ cols ∧ columnVals data c ≠ [])
    then Some (columnDetail (columnVals data c)) else acc.1 !! c.
Proof.
  revert acc. induction cols as [|col cols IH]; intros acc; cbn [fold_left].
  - rewrite decide_False; [done|]. intros [H _]. by apply elem_of_nil in H.
  - rewrite IH, columnStep_detail.
    destruct (decide (c ∈ cols ∧ _)) as [[Hin Hv]|Hn].
    + rewrite decide_True; [done|]. split; [apply elem_of_cons; by right|done].
    + destruct (decide (c = col ∧ _)) as [[-> Hv]|Hn'].
      * rewrite decide_True; [done|]. split; [apply elem_of_cons; by left|done].
      * rewrite decide_False; [done|]. intros [Hin Hv].
        apply elem_of_cons in Hin as [->|Hin]; [by apply Hn'|by apply Hn].
Qed.

Lemma fold_columnStep_trends data cols acc c :
  (fold_left (columnStep data) cols acc).2 !! c =
    if decide (c ∈ cols ∧ (1 < length (columnVals data c))%nat)
    then Some (map round2 (columnVals data c)) else acc.2 !! c.
Proof.
  revert acc. induction cols as [|col cols IH]; intros acc; cbn [fold_left].
  - rewrite decide_False; [done|]. intros [H _]. by apply elem_of_nil in H.
  - rewrite IH, columnStep_trends.
    destruct (decide (c ∈ cols ∧ _)) as [[Hin Hv]|Hn].
    + rewrite decide_True; [done|]. split; [apply elem_of_cons; by right|done].
    + destruct (decide (c = col ∧ _)) as [[-> Hv]|Hn'].
      * rewrite decide_True; [done|]. split; [apply elem_of_cons; by left|done].
      * rewrite decide_False; [done|]. intros [Hin Hv].
        apply elem_of_cons in Hin as [->|Hin]; [by apply Hn'|by apply Hn].
Qed.

(** [metricsDetail[c]] after the loop: the statistics of the column's
    surviving values, for a declared column that has some. *)
Lemma metricsDetail_lookup data cols c :
  (columnStats data cols).1 !! c =
    if decide (c ∈ cols ∧ columnVals data c ≠ [])
    then Some (columnDetail (columnVals data c)) else None.
Proof. unfold columnStats. by rewrite fold_columnStep_detail. Qed.

Lemma trends_lookup data cols c :
  (columnStats data cols).2 !! c =
    if decide (c ∈ cols ∧ (1 < length (columnVals data c))%nat)
    then Some (map round2 (columnVals data c)) else None.
Proof. unfold columnStats. by rewrite fold_columnStep_trends. Qed.

(** A non-empty column list and dataset take the main path. *)
Lemma computeGrowthMetrics_main sq data cols :
  data ≠ [] → cols ≠ [] →
  computeGrowthMetrics sq data cols =
    let stats := columnStats data cols in
    {| growth_score := round2 (growthScore stats.1 cols);
       efficiency_score := round2 (efficiencyScore stats.1 cols);
       pmf_signal := round2 (pmfSignal sq stats.1 cols);
       scalability_index := round2 (scalabilityIndex stats.1 cols);
       capital_efficiency := round2 (capitalEfficiency stats.1 cols);
       metrics_detail := stats.1;
       trends := stats.2 |}.
Proof.
  intros Hd Hc. unfold computeGrowthMetrics.
  destruct data; [done|]. destruct cols; [done|]. reflexivity.
Qed.

(** Surviving values are never [NaN], and a column with a surviving value
    belongs to a non-empty dataset. *)
Lemma columnVals_not_NaN data col :
  Forall (fun v => isNaN v = false) (columnVals data col).
Proof.
  unfold columnVals. induction data as [|r data IH]; simpl; [constructor|].
  destruct (isNaN (Number (cell r col))) eqn:E; simpl; [done|].
  by constructor.
Qed.

Lemma columnVals_nil col : columnVals [] col = [].
Proof. reflexivity. Qed.

(** ** Arithmetic of numbers *)

Section Arithmetic.
Local Open Scope Q_scope.

Lemma fin_proper p q : p == q → fin p = fin q.
Proof. intros H. unfold fin. f_equal. by apply Qred_complete. Qed.

Lemma is_zero_spec q : is_zero q = true ↔ q == 0.
Proof.
  unfold is_zero, Qeq. destruct q as [n d]; simpl. rewrite Z.eqb_eq. lia.
Qed.

Lemma is_negative_spec q : is_negative q = true ↔ q < 0.
Proof.
  unfold is_negative, Qlt. destruct q as [n d]; simpl. rewrite Z.ltb_lt. lia.
Qed.

Lemma le_Finite p q : le (Finite p) (Finite q) = true ↔ p <= q.
Proof. apply Qle_bool_iff. Qed.

Lemma le_fin p q : le (fin p) (fin q) = true ↔ p <= q.
Proof. unfold fin. rewrite le_Finite, !Qred_correct. reflexivity. Qed.


Lemma strict_eq_Finite p q : strict_eq (Finite p) (Finite q) = true ↔ p == q.
Proof. apply Qeq_bool_iff. Qed.

Lemma round2_NaN : round2 NaN = NaN.
Proof. reflexivity. Qed.

Lemma round2_Infinity s : round2 (Infinity s) = Infinity s.
Proof. by destruct s. Qed.

Lemma round2_Finite q :
  round2 (Finite q) = fin (inject_Z (Qfloor (q * 100 + (1 # 2))) / 100).
Proof.
  unfold round2, mul, num, Math_round, div, fin. simpl is_zero. cbv iota.
  f_equal. apply Qred_complete.
  assert (Qfloor (Qred (q * inject_Z 100) + (1 # 2)) =
          Qfloor (q * 100 + (1 # 2))) as ->; [|reflexivity].
  apply Qfloor_comp. rewrite Qred_correct. reflexivity.
Qed.

Lemma round2_proper p q : p == q → round2 (Finite p) = round2 (Finite q).
Proof.
  intros H. rewrite !round2_Finite. apply fin_proper.
  assert (Qfloor (p * 100 + (1 # 2)) = Qfloor (q * 100 + (1 # 2))) as ->;
    [|reflexivity].
  apply Qfloor_comp. by rewrite H.
Qed.

Lemma le_trans a b c : le a b = true → le b c = true → le a c = true.
Proof.
  destruct a as [|[]|p], b as [|[]|q], c as [|[]|r]; simpl; try done.
  rewrite !Qle_bool_iff. apply Qle_trans.
Qed.

Lemma le_refl a : isNaN a = false → le a a = true.
Proof.
  destruct a as [|[]|p]; simpl; try done.
  intros _. apply Qle_bool_iff, Qle_refl.
Qed.

Lemma lt_le a b : lt a b = true → le a b = true.
Proof.
  destruct a as [|[]|p], b as [|[]|q]; simpl; try done.
  rewrite negb_true_iff, <- not_true_iff_false, !Qle_bool_iff.
  intros H. apply Qlt_le_weak, Qnot_le_lt, H.
Qed.

Lemma not_lt_le a b :
  isNaN a = false → isNaN b = false → lt a b = false → le b a = true.
Proof.
  destruct a as [|[]|p], b as [|[]|q]; simpl; try done.
  intros _ _. by rewrite negb_false_iff.
Qed.

(** Rounding to two decimals is monotone. *)
Lemma round2_mono a b : le a b = true → le (round2 a) (round2 b) = true.
Proof.
  destruct a as [|[]|p], b as [|[]|q]; try done;
    rewrite ?round2_Infinity, ?round2_Finite; try done.
  rewrite le_Finite, le_fin. intros H.
  apply Qmult_le_compat_r; [|done].
  rewrite <- Zle_Qle. apply Qfloor_resp_le. lra.
Qed.

End Arithmetic.

(** ** Minimum, maximum, sum and mean of a series *)

Section Series.
Local Open Scope Q_scope.

Lemma existsb_isNaN vals :
  Forall (fun v => isNaN v = false) vals → existsb isNaN vals = false.
Proof.
  induction 1 as [|v vals Hv _ IH]; simpl; [done|]. by rewrite Hv, IH.
Qed.

Lemma fold_min_spec vals init :
  Forall (fun v => isNaN v = false) vals → isNaN init = false →
  let r := fold_left (fun lowest x => if lt x lowest then x else lowest)
                     vals init in
  isNaN r = false ∧ le r init = true ∧
  Forall (fun x => le r x = true) vals ∧ (r = init ∨ r ∈ vals).
Proof.
  intros Hvals. revert init.
  induction Hvals as [|v vals Hv _ IH]; intros init Hinit; simpl.
  - repeat split; [done|by apply le_refl|constructor|by left].
  - set (init' := if lt v init then v else init).
    assert (isNaN init' = false) as Hn by (unfold init'; by destruct (lt v init)).
    assert (le init' init = true) as Hi.
    { unfold init'. destruct (lt v init) eqn:E; [by apply lt_le|by apply le_refl]. }
    assert (le init' v = true) as Hx.
    { unfold init'. destruct (lt v init) eqn:E;
        [by apply le_refl|by apply not_lt_le]. }
    destruct (IH init' Hn) as (Hr & Hle & Hall & Hmem).
    repeat split; [done|by eapply le_trans| |].
    + constructor; [by eapply le_trans|done].
    + destruct Hmem as [->|Hmem].
      * unfold init'. destruct (lt v init); [right; apply elem_of_cons|]; auto.
      * right. apply elem_of_cons. auto.
Qed.

Lemma fold_max_spec vals init :
  Forall (fun v => isNaN v = false) vals → isNaN init = false →
  let r := fold_left (fun highest x => if gt x highest then x else highest)
                     vals init in
  isNaN r = false ∧ le init r = true ∧
  Forall (fun x => le x r = true) vals ∧ (r = init ∨ r ∈ vals).
Proof.
  intros Hvals. revert init.
  induction Hvals as [|v vals Hv _ IH]; intros init Hinit; simpl.
  - repeat split; [done|by apply le_refl|constructor|by left].
  - set (init' := if gt v init then v else init).
    assert (isNaN init' = false) as Hn
      by (unfold init'; by destruct (gt v init)).
    assert (le init init' = true) as Hi.
    { unfold init', gt. destruct (lt init v) eqn:E;
        [by apply lt_le|by apply le_refl]. }
    assert (le v init' = true) as Hx.
    { unfold init', gt. destruct (lt init v) eqn:E;
        [by apply le_refl|by apply not_lt_le]. }
    destruct (IH init' Hn) as (Hr & Hle & Hall & Hmem).
    repeat split; [done|by eapply le_trans| |].
    + constructor; [by eapply le_trans|done].
    + destruct Hmem as [->|Hmem].
      * unfold init'. destruct (gt v init); [right; apply elem_of_cons|]; auto.
      * right. apply elem_of_cons. auto.
Qed.

(** [Math.min] of a non-empty series without [NaN] is a lower bound that
    belongs to the series. *)
Lemma Math_min_spec vals :
  Forall (fun v => isNaN v = false) vals → vals ≠ [] →
  Math_min vals ∈ vals ∧ Forall (fun x => le (Math_min vals) x = true) vals.
Proof.
  intros Hvals Hne. unfold Math_min. rewrite existsb_isNaN by done.
  destruct (fold_min_spec vals (Infinity false) Hvals eq_refl)
    as (Hr & _ & Hall & Hmem).
  split; [|done]. destruct Hmem as [Heq|Hmem]; [|done].
  destruct vals as [|v vals]; [done|]. rewrite Heq in *.
  apply Forall_cons in Hall as [Hv _], Hvals as [Hnv _].
  destruct v as [|[]|q]; try done. apply elem_of_cons. by left.
Qed.

Lemma Math_max_spec vals :
  Forall (fun v => isNaN v = false) vals → vals ≠ [] →
  Math_max vals ∈ vals ∧ Forall (fun x => le x (Math_max vals) = true) vals.
Proof.
  intros Hvals Hne. unfold Math_max. rewrite existsb_isNaN by done.
  destruct (fold_max_spec vals (Infinity true) Hvals eq_refl)
    as (Hr & _ & Hall & Hmem).
  split; [|done]. destruct Hmem as [Heq|Hmem]; [|done].
  destruct vals as [|v vals]; [done|]. rewrite Heq in *.
  apply Forall_cons in Hall as [Hv _], Hvals as [Hnv _].
  destruct v as [|[]|q]; try done. apply elem_of_cons. by left.
Qed.

(** The sum of finite numbers is the finite sum of their rationals. *)
Lemma fold_add_finite vals a :
  Forall (fun v => is_finite v = true) vals →
  ∃ s, fold_left add vals (Finite a) = Finite s ∧
       s == a + Qsum (to_Q <$> vals).
Proof.
  intros Hvals. revert a.
  induction Hvals as [|v vals Hv _ IH]; intros a.
  - exists a. split; [done|]. unfold Qsum. simpl. lra.
  - destruct v as [| |q]; try done. cbn [fold_left add]. unfold fin.
    destruct (IH (Qred (a + q))) as (s & -> & Hs).
    exists s. split; [done|]. rewrite Hs, Qred_correct, fmap_cons.
    unfold Qsum. cbn [foldr to_Q]. lra.
Qed.

Lemma sum_finite vals :
  Forall (fun v => is_finite v = true) vals →
  ∃ s, sum vals = Finite s ∧ s == Qsum (to_Q <$> vals).
Proof.
  intros Hvals. destruct (fold_add_finite vals 0 Hvals) as (s & Hs & Heq).
  exists s. split; [done|]. rewrite Heq. lra.
Qed.

End Series.

(** ** The column classifier *)

Lemma startsWith_spec s kw :
  startsWith s kw = true ↔ ∃ post, s = (kw +:+ post)%string.
Proof.
  revert s. induction kw as [|a kw IH]; intros s; simpl.
  - split; [intros _; by exists s|done].
  - destruct s as [|b s].
    + split; [done|]. by intros [post H].
    + rewrite andb_true_iff, Ascii.eqb_eq, IH. split.
      * intros [-> [post ->]]. by exists post.
      * intros [post H]. injection H as -> ->. eauto.
Qed.

Lemma includes_spec s kw : includes s kw = true ↔ substring kw s.
Proof.
  unfold substring. induction s as [|c s IH]; simpl.
  - rewrite orb_false_r, startsWith_spec. split.
    + intros [post H]. by exists ""%string, post.
    + intros ([|? pre] & post & H); [by exists post|done].
  - rewrite orb_true_iff, startsWith_spec, IH. split.
    + intros [[post H]|(pre & post & H)].
      * by exists ""%string, post.
      * exists (String c pre), post. simpl. by rewrite H.
    + intros ([|c' pre] & post & H).
      * left. by exists post.
      * right. simpl in H. injection H as -> ->. eauto.
Qed.

Lemma existsb_includes keywords c :
  existsb (fun kw => includes c kw) keywords = true ↔ matches keywords c.
Proof.
  unfold matches. rewrite existsb_exists. split.
  - intros (kw & Hin & H). exists kw.
    by rewrite list_elem_of_In, <- includes_spec.
  - intros (kw & Hin & H). exists kw.
    by rewrite <- list_elem_of_In, includes_spec.
Qed.

#[global] Instance matches_dec keywords c : Decision (matches keywords c).
Proof.
  destruct (existsb (fun kw => includes c kw) keywords) eqn:E.
  - left. by apply existsb_includes.
  - right. by rewrite <- existsb_includes, E.
Defined.

#[global] Instance substring_dec kw s : Decision (substring kw s).
Proof.
  destruct (includes s kw) eqn:E.
  - left. by apply includes_spec.
  - right. by rewrite <- includes_spec, E.
Defined.

(** A boolean filter is the filter of the property it decides. *)
Lemma bool_filter_spec {A} (f : A → bool) (P : A → Prop)
    `{!∀ x, Decision (P x)} (l : list A) :
  (∀ x, f x = true ↔ P x) → List.filter f l = filter P l.
Proof.
  intros Hf. induction l as [|x l IH]; simpl; [done|].
  rewrite filter_cons. destruct (f x) eqn:E.
  - rewrite decide_True by (by apply Hf). by rewrite IH.
  - rewrite decide_False; [done|]. rewrite <- Hf, E. done.
Qed.

Lemma classify_bucket keywords numericCols :
  List.filter (fun c => existsb (fun kw => includes c kw) keywords) numericCols
  = filter (matches keywords) numericCols.
Proof. apply bool_filter_spec. intros c. apply existsb_includes. Qed.

(** C9. The classifier puts a declared column name in a bucket exactly
    when one of the bucket's keywords occurs in the name: each bucket is
    the declared list filtered by its keyword set, so the declaration
    order is kept and the four buckets are decided independently of each
    other.  A name can land in no bucket, in one, or in several:
    [customer_churn_rate] is in the user bucket (by "customer") and in the
    retention bucket (by "churn") whenever it is declared. *)
Theorem C9_classifier_buckets (numericCols : list string) :
  let cls := classifyColumns numericCols in
  (revenue cls = filter (matches revenue_keywords) numericCols ∧
   cost cls = filter (matches cost_keywords) numericCols ∧
   user cls = filter (matches user_keywords) numericCols ∧
   retention cls = filter (matches retention_keywords) numericCols) ∧
  (sublist (revenue cls) numericCols ∧ sublist (cost cls) numericCols ∧
   sublist (user cls) numericCols ∧ sublist (retention cls) numericCols) ∧
  (∀ c, (c ∈ revenue cls ↔ c ∈ numericCols ∧ matches revenue_keywords c) ∧
        (c ∈ cost cls ↔ c ∈ numericCols ∧ matches cost_keywords c) ∧
        (c ∈ user cls ↔ c ∈ numericCols ∧ matches user_keywords c) ∧
        (c ∈ retention cls ↔ c ∈ numericCols ∧ matches retention_keywords c)) ∧
  ("customer_churn_rate" ∈ numericCols →
   "customer_churn_rate" ∈ user cls ∧ "customer_churn_rate" ∈ retention cls ∧
   ("customer_churn_rate" ∉ revenue cls) ∧
   ("customer_churn_rate" ∉ cost cls)) ∧
  classifyColumns ["headcount"; "mrr"; "customer_churn_rate"] =
    {| revenue := ["mrr"]; cost := [];
       user := ["customer_churn_rate"];
       retention := ["customer_churn_rate"] |}.
Proof.
  intros cls.
  assert (revenue cls = filter (matches revenue_keywords) numericCols ∧
          cost cls = filter (matches cost_keywords) numericCols ∧
          user cls = filter (matches user_keywords) numericCols ∧
          retention cls = filter (matches retention_keywords) numericCols)
    as (Hr & Hc & Hu & Ht).
  { unfold cls, classifyColumns; cbn [revenue cost user retention].
    by rewrite !classify_bucket. }
  split; [done|]. rewrite Hr, Hc, Hu, Ht.
  split; [repeat split; apply sublist_filter|].
  split.
  { intros c. rewrite !list_elem_of_filter. repeat split; tauto. }
  split; [|reflexivity].
  intros Hin. rewrite !list_elem_of_filter.
  repeat split; try done; try (by apply existsb_includes).
  - intros [H _]. by apply existsb_includes in H.
  - intros [H _]. by apply existsb_includes in H.
Qed.

(** ** Per-column statistics in the result *)

Section Columns.
Variable Math_sqrt : number → number.

(** A declared column with a surviving value has its statistics and,
    with two or more, its trend in the result. *)
Lemma result_of_column data cols col :
  col ∈ cols → columnVals data col ≠ [] →
  let r := computeGrowthMetrics Math_sqrt data cols in
  metrics_detail r !! col = Some (columnDetail (columnVals data col)) ∧
  trends r !! col =
    if decide (1 < length (columnVals data col))%nat
    then Some (map round2 (columnVals data col)) else None.
Proof.
  intros Hin Hne r. unfold r.
  rewrite computeGrowthMetrics_main.
  - cbn [metrics_detail trends]. rewrite metricsDetail_lookup, trends_lookup.
    rewrite decide_True by done. split; [done|].
    destruct (decide (1 < length (columnVals data col))%nat) as [Hl|Hl].
    + by rewrite decide_True.
    + rewrite decide_False; [done|]. by intros [_ ?].
  - intros ->. by rewrite columnVals_nil in Hne.
  - intros ->. by apply elem_of_nil in Hin.
Qed.

(** Conversely the statistics in the result are those of a declared
    column with a surviving value. *)
Lemma column_of_result data cols col d :
  metrics_detail (computeGrowthMetrics Math_sqrt data cols) !! col = Some d →
  col ∈ cols ∧ columnVals data col ≠ [] ∧
  d = columnDetail (columnVals data col).
Proof.
  unfold computeGrowthMetrics.
  destruct ((length data =? 0)%nat || (length cols =? 0)%nat); [done|].
  cbn [metrics_detail]. rewrite metricsDetail_lookup.
  destruct (decide _) as [[Hin Hne]|_]; [|done]. intros [= <-]. done.
Qed.

End Columns.

(** *** The percent-change loop *)

Lemma flat_map_seq_shift {A} (f g : nat → list A) (s n : nat) :
  (∀ i, (s ≤ i)%nat → f (S i) = g i) →
  flat_map f (seq (S s) n) = flat_map g (seq s n).
Proof.
  revert s. induction n as [|n IH]; intros s H; simpl; [done|].
  rewrite H by lia. f_equal. apply IH. intros i Hi. apply H. lia.
Qed.

Lemma pctChanges_cons v w rest :
  pctChanges (v :: w :: rest) =
    (if strict_ne v (num 0) then [pctChange (v, w)] else [])
    ++ pctChanges (w :: rest).
Proof.
  unfold pctChanges. cbn [length].
  replace (S (S (length rest)) - 1)%nat with (S (length rest)) by lia.
  replace (S (length rest) - 1)%nat with (length rest) by lia.
  cbn [seq flat_map]. f_equal.
  apply flat_map_seq_shift. intros i Hi.
  destruct i as [|i]; [lia|]. cbn [lookup list_lookup].
  by replace (S (S i) - 1)%nat with (S (S i - 1)) by lia.
Qed.

(** The loop emits one entry per adjacent pair whose first value is not
    zero, in order. *)
Lemma pctChanges_adjacent vals :
  pctChanges vals =
    pctChange <$>
      filter (fun p => strict_ne p.1 (num 0) = true) (adjacent vals).
Proof.
  induction vals as [|v vals IH]; [done|].
  destruct vals as [|w rest]; [done|].
  rewrite pctChanges_cons, IH. unfold adjacent. cbn [tail zip_with].
  rewrite filter_cons. cbn [fst].
  destruct (strict_ne v (num 0)) eqn:E.
  - by rewrite decide_True.
  - by rewrite decide_False.
Qed.

(** *** The surviving values of a column *)

(** The surviving values are the coerced cells that are not [NaN], in row
    order. *)
Lemma columnVals_filter data col :
  columnVals data col =
    filter (fun v => isNaN v = false)
           ((fun r => Number (cell r col)) <$> data).
Proof.
  unfold columnVals. induction data as [|r data IH]; [done|].
  cbn [omap list_omap fmap list_fmap]. rewrite filter_cons.
  destruct (isNaN (Number (cell r col))) eqn:E.
  - by rewrite decide_False.
  - rewrite decide_True by done. by rewrite <- IH.
Qed.

(** C1 (failing input). For the cells "12", "abc", null, "15" the
    surviving values are 12, 0, 15: "abc" is dropped, but [Number(null)]
    is 0, so the null cell stays as a zero and enters every statistic of
    the column (mean 9, min 0, a growth rate of -100). *)
Theorem C1_null_cell_survives_as_zero :
  columnVals noisy_signups "signups" = [num 12; num 0; num 15] ∧
  metrics_detail (computeGrowthMetrics sqrt_sample noisy_signups ["signups"])
    !! "signups" =
  Some {| ColumnMetrics.mean := num 9;
          ColumnMetrics.latest := num 15;
          ColumnMetrics.min := num 0;
          ColumnMetrics.max := num 15;
          ColumnMetrics.total := num 27;
          ColumnMetrics.avg_growth_rate := Some (num (-100));
          ColumnMetrics.growth_rates := Some [num (-100)] |} ∧
  trends (computeGrowthMetrics sqrt_sample noisy_signups ["signups"])
    !! "signups" = Some [num 12; num 0; num 15].
Proof. by vm_compute. Qed.

(** *** Growth rates *)

(** C4. In the result, the growth rates of a declared column with at
    least two surviving values are, rounded, the changes
    (v[i] - v[i-1]) / abs(v[i-1]) * 100 of exactly those adjacent pairs
    whose first value is not zero; and a column whose surviving values
    are 0, 10 has the empty list of growth rates, the average growth rate
    0, and the trend 0, 10. *)
Theorem C4_zero_previous_is_skipped Math_sqrt data cols col :
  col ∈ cols →
  let r := computeGrowthMetrics Math_sqrt data cols in
  let vals := columnVals data col in
  let nonzero_previous :=
    filter (fun p => strict_ne p.1 (num 0) = true) (adjacent vals) in
  pctChanges vals = pctChange <$> nonzero_previous ∧
  ((1 < length vals)%nat →
   ∃ d, metrics_detail r !! col = Some d ∧
        ColumnMetrics.growth_rates d =
          Some (round2 <$> (pctChange <$> nonzero_previous))) ∧
  (∀ a b, vals = [Finite a; Finite b] → (a == 0)%Q → (b == 10)%Q →
   ∃ d, metrics_detail r !! col = Some d ∧
        ColumnMetrics.growth_rates d = Some [] ∧
        ColumnMetrics.avg_growth_rate d = Some (num 0) ∧
        trends r !! col = Some [num 0; num 10]).
Proof.
  intros Hin r vals nz. subst r.
  assert (pctChanges vals = pctChange <$> nz) as Hpct
    by apply pctChanges_adjacent.
  split; [done|]. split.
  - intros Hlen.
    destruct (result_of_column Math_sqrt data cols col Hin) as [Hd _].
    { intros E. fold vals in E. rewrite E in Hlen. simpl in Hlen. lia. }
    eexists. split; [exact Hd|]. fold vals.
    unfold columnDetail. cbn [ColumnMetrics.growth_rates].
    apply Nat.ltb_lt in Hlen. by rewrite Hlen, Hpct.
  - intros a b Hvals Ha Hb.
    destruct (result_of_column Math_sqrt data cols col Hin) as [Hd Ht].
    { fold vals. by rewrite Hvals. }
    fold vals in Hd, Ht. eexists. split; [exact Hd|].
    rewrite Ht, Hvals. cbn [length]. rewrite decide_True by lia.
    assert (strict_ne (Finite a) (num 0) = false) as Hz.
    { unfold strict_ne. apply negb_false_iff. by apply strict_eq_Finite. }
    unfold columnDetail.
    cbn [ColumnMetrics.growth_rates ColumnMetrics.avg_growth_rate length].
    rewrite pctChanges_cons, Hz. cbn [map].
    rewrite (round2_proper a 0 Ha), (round2_proper b 10 Hb). done.
Qed.

(** C4 on a two-row dataset whose column reads 0, 10: no growth rate,
    average 0, trend 0, 10. *)
Lemma C4_witness :
  let r := computeGrowthMetrics sqrt_sample zero_then_ten ["signups"] in
  pctChanges (columnVals zero_then_ten "signups") = [] ∧
  ∃ d, metrics_detail r !! "signups" = Some d ∧
       ColumnMetrics.growth_rates d = Some [] ∧
       ColumnMetrics.avg_growth_rate d = Some (num 0) ∧
       trends r !! "signups" = Some [num 0; num 10].
Proof.
  destruct (C4_zero_previous_is_skipped sqrt_sample zero_then_ten
              ["signups"] "signups") as (Hpct & _ & Hzero).
  - constructor.
  - split; [exact Hpct|]. apply (Hzero 0%Q 10%Q); reflexivity.
Defined.

(** C5 (counterexample). For the column 1000000, 1000045, 1000090,
    1000160 the returned growth rates are 0, 0, 0.01, whose mean is 1/300
    (0 when rounded), while the returned average growth rate is 0.01. *)
Lemma C5_counterexample :
  let d := columnDetail (columnVals slow_growth "visits") in
  let returned_rates := [num 0; num 0; fin (1 # 100)] in
  metrics_detail (computeGrowthMetrics sqrt_sample slow_growth ["visits"])
    !! "visits" = Some d ∧
  ColumnMetrics.growth_rates d = Some returned_rates ∧
  ColumnMetrics.avg_growth_rate d = Some (fin (1 # 100)) ∧
  mean returned_rates = fin (1 # 300) ∧
  round2 (mean returned_rates) = num 0 ∧
  ColumnMetrics.avg_growth_rate d ≠ Some (mean returned_rates) ∧
  ColumnMetrics.avg_growth_rate d ≠ Some (round2 (mean returned_rates)).
Proof. by vm_compute. Qed.

(** C5 (amended). For a declared column with at least two surviving
    values, the returned growth rates are the percent changes rounded one
    by one, and the returned average growth rate is the mean of the
    percent changes before their rounding, rounded once, or 0 when there
    is no percent change. *)
Theorem C5_average_of_unrounded_rates Math_sqrt data cols col :
  col ∈ cols → (1 < length (columnVals data col))%nat →
  let r := computeGrowthMetrics Math_sqrt data cols in
  let changes :=
    pctChange <$> filter (fun p => strict_ne p.1 (num 0) = true)
                         (adjacent (columnVals data col)) in
  ∃ d, metrics_detail r !! col = Some d ∧
       ColumnMetrics.growth_rates d = Some (round2 <$> changes) ∧
       ColumnMetrics.avg_growth_rate d =
         Some (match changes with
               | [] => num 0
               | _ :: _ => round2 (mean changes)
               end).
Proof.
  intros Hin Hlen r changes. subst r.
  destruct (result_of_column Math_sqrt data cols col Hin) as [Hd _].
  { intros E. rewrite E in Hlen. simpl in Hlen. lia. }
  eexists. split; [exact Hd|].
  unfold columnDetail.
  cbn [ColumnMetrics.growth_rates ColumnMetrics.avg_growth_rate].
  apply Nat.ltb_lt in Hlen. rewrite Hlen, pctChanges_adjacent.
  fold changes. split; [done|]. by destruct changes.
Qed.

(** C5 (amended) on the slowly growing column: the average 0.01 is the
    rounded mean of the three changes before their rounding. *)
Lemma C5_witness :
  let r := computeGrowthMetrics sqrt_sample slow_growth ["visits"] in
  let changes :=
    [fin (9 # 2000); fin (900 # 200009); fin (100 # 14287)] in
  ∃ d, metrics_detail r !! "visits" = Some d ∧
       ColumnMetrics.growth_rates d = Some (round2 <$> changes) ∧
       ColumnMetrics.avg_growth_rate d = Some (round2 (mean changes)).
Proof.
  apply (C5_average_of_unrounded_rates sqrt_sample slow_growth ["visits"]
           "visits").
  - constructor.
  - vm_compute. lia.
Defined.

(** *** Columns with a single value *)

Lemma Math_min_singleton v : Math_min [v] = v.
Proof. by destruct v as [|[]|q]. Qed.

Lemma Math_max_singleton v : Math_max [v] = v.
Proof. by destruct v as [|[]|q]. Qed.

Lemma round2_sum_singleton v : round2 (sum [v]) = round2 v.
Proof.
  destruct v as [|[]|q]; try done.
  apply round2_proper. rewrite Qred_correct. apply Qplus_0_l.
Qed.

Lemma round2_mean_singleton v : round2 (mean [v]) = round2 v.
Proof.
  destruct v as [|[]|q]; try done.
  apply round2_proper. rewrite !Qred_correct.
  change (inject_Z (Z.of_nat (length [Finite q]))) with 1%Q. field.
Qed.

(** C6. A declared column with exactly one surviving value [v] is in
    [metrics_detail] with mean, latest, min, max and total all equal to
    [v] rounded to two decimals, without growth rates and without an
    average growth rate, and it has no entry in [trends]. *)
Theorem C6_single_value_column Math_sqrt data cols col v :
  col ∈ cols → columnVals data col = [v] →
  let r := computeGrowthMetrics Math_sqrt data cols in
  metrics_detail r !! col =
    Some {| ColumnMetrics.mean := round2 v;
            ColumnMetrics.latest := round2 v;
            ColumnMetrics.min := round2 v;
            ColumnMetrics.max := round2 v;
            ColumnMetrics.total := round2 v;
            ColumnMetrics.avg_growth_rate := None;
            ColumnMetrics.growth_rates := None |} ∧
  trends r !! col = None.
Proof.
  intros Hin Hvals r. subst r.
  destruct (result_of_column Math_sqrt data cols col Hin) as [Hd Ht].
  { by rewrite Hvals. }
  rewrite Hd, Ht, Hvals. split; [|done].
  unfold columnDetail. cbn [length Nat.ltb Nat.leb last default].
  by rewrite round2_mean_singleton, round2_sum_singleton,
    Math_min_singleton, Math_max_singleton.
Qed.

(** C6 on a column whose only numeric cell is 42. *)
Lemma C6_witness :
  let r := computeGrowthMetrics sqrt_sample single_signup ["signups"] in
  metrics_detail r !! "signups" =
    Some {| ColumnMetrics.mean := round2 (num 42);
            ColumnMetrics.latest := round2 (num 42);
            ColumnMetrics.min := round2 (num 42);
            ColumnMetrics.max := round2 (num 42);
            ColumnMetrics.total := round2 (num 42);
            ColumnMetrics.avg_growth_rate := None;
            ColumnMetrics.growth_rates := None |} ∧
  trends r !! "signups" = None.
Proof.
  apply (C6_single_value_column sqrt_sample single_signup ["signups"]).
  - constructor.
  - reflexivity.
Defined.

(** ** Composite scores *)

Lemma length_eqb_nil {A} (l : list A) : (length l =? 0)%nat = true ↔ l = [].
Proof. destruct l; simpl; split; done. Qed.

Lemma length_eqb_cons {A} (l : list A) : (length l =? 0)%nat = false ↔ l ≠ [].
Proof. destruct l; simpl; split; done. Qed.

Lemma growthRates_empty cols : growthRates ∅ cols = [].
Proof.
  unfold growthRates. induction (growthCols cols) as [|c l IH]; [done|].
  cbn [omap list_omap]. by rewrite lookup_empty.
Qed.

Lemma computeGrowthMetrics_degenerate Math_sqrt data cols :
  data = [] ∨ cols = [] → computeGrowthMetrics Math_sqrt data cols = zeroResult.
Proof.
  intros [-> | ->]; [done|]. unfold computeGrowthMetrics.
  by rewrite orb_true_r.
Qed.

(** C3. When the row sequence or the declared column list is empty the
    engine returns (it is a total function: nothing is thrown) the result
    whose five scores are 0 and whose two maps are empty; and the engine
    returns that result on no other input. *)
Theorem C3_degenerate_input Math_sqrt data cols :
  (data = [] ∨ cols = []) ↔
  computeGrowthMetrics Math_sqrt data cols = zeroResult.
Proof.
  split.
  - intros [-> | ->]; [done|]. unfold computeGrowthMetrics.
    by rewrite orb_true_r.
  - intros H. destruct data as [|r data]; [by left|].
    destruct cols as [|c cols]; [by right|]. exfalso.
    rewrite computeGrowthMetrics_main in H by done.
    pose proof (f_equal metrics_detail H) as Hmd.
    pose proof (f_equal growth_score H) as Hgs.
    cbn [metrics_detail growth_score zeroResult] in Hmd, Hgs.
    rewrite Hmd in Hgs. unfold growthScore in Hgs.
    rewrite growthRates_empty in Hgs. by vm_compute in Hgs.
Qed.

(** C2 (failing input). For a revenue column whose two cells read
    "Infinity" the growth rate is Infinity - Infinity over Infinity, which
    is [NaN]; [clamp] lets [NaN] through, and the growth score and the
    PMF signal of the result are [NaN], which is not in [0, 100]. *)
Theorem C2_score_outside_bounds Math_sqrt :
  let r := computeGrowthMetrics Math_sqrt infinite_revenue ["revenue"] in
  columnVals infinite_revenue "revenue" = [Infinity false; Infinity false] ∧
  growth_score r = NaN ∧ pmf_signal r = NaN ∧
  le (num 0) (growth_score r) = false ∧
  le (growth_score r) (num 100) = false.
Proof. by vm_compute. Qed.

(** *** Efficiency score *)

(** C7 (counterexample). With revenue = [100] and cost = [300] the
    buckets' totals are 100 and 300 and clamp((100 / 300) * 25) is 25/3,
    while the returned efficiency score is 8.33. *)
Lemma C7_counterexample :
  let r := computeGrowthMetrics sqrt_sample costly ["revenue"; "cost"] in
  let cls := classifyColumns ["revenue"; "cost"] in
  let sumRevenue :=
    sumOver (metrics_detail r) ColumnMetrics.total (revenue cls) in
  let sumCost := sumOver (metrics_detail r) ColumnMetrics.total (cost cls) in
  revenue cls = ["revenue"] ∧ cost cls = ["cost"] ∧
  sumRevenue = num 100 ∧ sumCost = num 300 ∧ gt sumCost (num 0) = true ∧
  clamp (mul (div sumRevenue sumCost) (num 25)) = fin (25 # 3) ∧
  efficiency_score r = fin (833 # 100) ∧
  efficiency_score r ≠ clamp (mul (div sumRevenue sumCost) (num 25)).
Proof. by vm_compute. Qed.

(** C7 (amended). On an empty dataset or an empty column list the
    efficiency score is 0.  On every other input it is 65 when the revenue
    bucket or the cost bucket is empty; otherwise, with [sumRevenue] and
    [sumCost] the sums of the totals of the buckets' columns (a column
    without statistics counts 0), it is clamp((sumRevenue / sumCost) * 25)
    rounded to two decimals when sumCost > 0, and 65 when sumCost > 0 does
    not hold, in particular when sumCost <= 0.  A dataset whose columns
    are revenue = [100, 200] and cost = [50, 50] has the efficiency score
    75. *)
Theorem C7_efficiency_score Math_sqrt :
  (∀ data cols,
   let r := computeGrowthMetrics Math_sqrt data cols in
   let cls := classifyColumns cols in
   let sumRevenue :=
     sumOver (metrics_detail r) ColumnMetrics.total (revenue cls) in
   let sumCost :=
     sumOver (metrics_detail r) ColumnMetrics.total (cost cls) in
   (data = [] ∨ cols = [] → efficiency_score r = num 0) ∧
   (data ≠ [] → cols ≠ [] →
    (revenue cls = [] ∨ cost cls = [] → efficiency_score r = num 65) ∧
    (revenue cls ≠ [] → cost cls ≠ [] → gt sumCost (num 0) = true →
     efficiency_score r =
       round2 (clamp (mul (div sumRevenue sumCost) (num 25)))) ∧
    (revenue cls ≠ [] → cost cls ≠ [] → gt sumCost (num 0) = false →
     efficiency_score r = num 65)) ∧
   (le sumCost (num 0) = true → gt sumCost (num 0) = false)) ∧
  (∀ data,
   columnVals data "revenue" = [num 100; num 200] →
   columnVals data "cost" = [num 50; num 50] →
   efficiency_score (computeGrowthMetrics Math_sqrt data ["revenue"; "cost"])
   = num 75).
Proof.
  split.
  - intros data cols r cls sumRevenue sumCost. split; [|split].
    + intros Hdeg. subst r.
      by rewrite (computeGrowthMetrics_degenerate Math_sqrt data cols Hdeg).
    + intros Hd Hc. subst r sumRevenue sumCost.
      rewrite computeGrowthMetrics_main by done.
      cbn [efficiency_score metrics_detail].
      unfold efficiencyScore. cbv zeta. fold cls.
      split; [|split].
      * intros [H|H]; apply length_eqb_nil in H; rewrite H;
          by rewrite ?andb_false_r.
      * intros Hr Hco Hgt.
        apply length_eqb_cons in Hr, Hco. by rewrite Hr, Hco, Hgt.
      * intros Hr Hco Hgt.
        apply length_eqb_cons in Hr, Hco. by rewrite Hr, Hco, Hgt.
    + subst sumCost. unfold gt.
      destruct (sumOver _ ColumnMetrics.total (cost cls)) as [|[]|q];
        simpl; try done.
      intros H. apply negb_false_iff. apply Qle_bool_iff.
      apply Qle_bool_iff in H. done.
  - intros data Hrev Hcost.
    assert (data ≠ []) as Hd by (intros ->; done).
    rewrite computeGrowthMetrics_main by done.
    cbn [efficiency_score]. unfold efficiencyScore, sumOver.
    change (classifyColumns ["revenue"; "cost"]) with
      {| revenue := ["revenue"]; cost := ["cost"]; user := [];
         retention := [] |}.
    cbn [revenue cost length Nat.eqb negb andb fold_left].
    rewrite !metricsDetail_lookup, Hrev, Hcost.
    rewrite !decide_True by (split; [repeat constructor|done]).
    by vm_compute.
Qed.

(** C7 (amended) on the dataset revenue = [100, 200], cost = [50, 50]:
    the totals are 300 and 100 and the score is the rounded
    clamp((300 / 100) * 25), which is 75; without any row the score
    is 0. *)
Lemma C7_witness :
  let r :=
    computeGrowthMetrics sqrt_sample revenue_and_cost ["revenue"; "cost"] in
  efficiency_score r =
    round2 (clamp (mul (div (num 300) (num 100)) (num 25))) ∧
  efficiency_score r = num 75 ∧
  efficiency_score (computeGrowthMetrics sqrt_sample [] ["revenue"; "cost"])
  = num 0.
Proof.
  split; [|split].
  - apply (proj1 (C7_efficiency_score sqrt_sample) revenue_and_cost
             ["revenue"; "cost"]); discriminate || reflexivity.
  - apply (proj2 (C7_efficiency_score sqrt_sample) revenue_and_cost);
      reflexivity.
  - apply (proj1 (C7_efficiency_score sqrt_sample) []
             ["revenue"; "cost"]). by left.
Defined.

(** *** PMF signal *)

Lemma churn_columns cols :
  List.filter (fun c => includes c "churn") cols
  = filter (substring "churn") cols.
Proof. apply bool_filter_spec. intros c. apply includes_spec. Qed.

Lemma pure_retention_columns (cols : list string) :
  List.filter (fun c => negb (includes c "churn")) cols
  = filter (fun c => ¬ substring "churn" c) cols.
Proof.
  apply bool_filter_spec. intros c.
  rewrite negb_true_iff, <- not_true_iff_false, includes_spec. done.
Qed.

(** C8 (counterexample). With the pure retention columns 80, 80 and 81
    the clamped average of the latest values is 241/3 and the returned
    PMF signal is 80.33.  With a pure retention column that has no numeric
    cell and a churn column, there is no latest value to average, the
    churn column is not consulted, and the PMF signal is 55. *)
Lemma C8_counterexample :
  (let cols := ["retention_d1"; "retention_d7"; "retention_d30"] in
   let r := computeGrowthMetrics sqrt_sample retention_cohorts cols in
   let pure :=
     filter (fun c => ¬ substring "churn" c)
            (retention (classifyColumns cols)) in
   pure = cols ∧
   latestOf (metrics_detail r) pure = [num 80; num 80; num 81] ∧
   clamp (mean (latestOf (metrics_detail r) pure)) = fin (241 # 3) ∧
   pmf_signal r = fin (8033 # 100) ∧
   pmf_signal r ≠ clamp (mean (latestOf (metrics_detail r) pure))) ∧
  (let cols := ["nrr"; "churn"] in
   let r := computeGrowthMetrics sqrt_sample silent_retention cols in
   let pure :=
     filter (fun c => ¬ substring "churn" c)
            (retention (classifyColumns cols)) in
   pure = ["nrr"] ∧ latestOf (metrics_detail r) pure = [] ∧
   clamp (mean (latestOf (metrics_detail r) pure)) = num 0 ∧
   pmf_signal r = num 55).
Proof. by vm_compute. Qed.

(** C8 (amended). On an empty dataset or an empty column list the PMF
    signal is 0.  On every other input the PMF signal, always rounded to
    two decimals, is decided in this order.  If some retention-bucket
    column does not contain "churn": the clamped mean of the latest values
    of those pure retention columns that have statistics, or 55 when none
    of them has; churn columns and growth rates are not consulted.  Else,
    if some declared column contains "churn": clamp(100 - avgChurn * 10)
    with avgChurn the mean of the latest values of the churn columns that
    have statistics, or 55 when none of them has.  Else, if growth rates
    were collected for the growth score: clamp((consistency + growthScore)
    / 2) with growthScore the growth score before its rounding and
    consistency = 100 - min(100, std(growthRates) * 2) when there is more
    than one rate and 60 otherwise.  Else 55. *)
Theorem C8_pmf_signal Math_sqrt data cols :
  let r := computeGrowthMetrics Math_sqrt data cols in
  let md := metrics_detail r in
  let pure :=
    filter (fun c => ¬ substring "churn" c)
           (retention (classifyColumns cols)) in
  let churn := filter (substring "churn") cols in
  let rates := growthRates md cols in
  let consistency :=
    if (1 <? length rates)%nat
    then sub (num 100) (Math_min [num 100; mul (std Math_sqrt rates) (num 2)])
    else num 60 in
  (data = [] ∨ cols = [] → pmf_signal r = num 0) ∧
  (data ≠ [] → cols ≠ [] →
   growth_score r = round2 (growthScore md cols) ∧
   (pure ≠ [] → latestOf md pure ≠ [] →
    pmf_signal r = round2 (clamp (mean (latestOf md pure)))) ∧
   (pure ≠ [] → latestOf md pure = [] → pmf_signal r = num 55) ∧
   (pure = [] → churn ≠ [] → latestOf md churn ≠ [] →
    pmf_signal r =
      round2 (clamp (sub (num 100)
                         (mul (mean (latestOf md churn)) (num 10))))) ∧
   (pure = [] → churn ≠ [] → latestOf md churn = [] →
    pmf_signal r = num 55) ∧
   (pure = [] → churn = [] → rates ≠ [] →
    pmf_signal r =
      round2 (clamp (div (add consistency (growthScore md cols)) (num 2)))) ∧
   (pure = [] → churn = [] → rates = [] → pmf_signal r = num 55)).
Proof.
  intros r md pure churn rates consistency. split.
  { intros Hdeg. subst r.
    by rewrite (computeGrowthMetrics_degenerate Math_sqrt data cols Hdeg). }
  intros Hd Hc.
  subst consistency rates md r.
  rewrite computeGrowthMetrics_main by done.
  cbn [growth_score pmf_signal metrics_detail].
  split; [done|].
  unfold pmfSignal. cbv zeta.
  rewrite churn_columns, pure_retention_columns. fold pure churn.
  split; [|split; [|split; [|split; [|split]]]].
  - intros Hp Hl. apply length_eqb_cons in Hp, Hl. by rewrite Hp, Hl.
  - intros Hp Hl. apply length_eqb_cons in Hp. apply length_eqb_nil in Hl.
    by rewrite Hp, Hl.
  - intros Hp Hch Hl. apply length_eqb_nil in Hp.
    apply length_eqb_cons in Hch, Hl. by rewrite Hp, Hch, Hl.
  - intros Hp Hch Hl. apply length_eqb_nil in Hp, Hl.
    apply length_eqb_cons in Hch. by rewrite Hp, Hch, Hl.
  - intros Hp Hch Hr. apply length_eqb_nil in Hp, Hch.
    apply length_eqb_cons in Hr. by rewrite Hp, Hch, Hr.
  - intros Hp Hch Hr. apply length_eqb_nil in Hp, Hch, Hr.
    by rewrite Hp, Hch, Hr.
Qed.

(** C8 (amended) on the three retention columns: the first branch
    applies; without any row the signal is 0. *)
Lemma C8_witness :
  let cols := ["retention_d1"; "retention_d7"; "retention_d30"] in
  pmf_signal (computeGrowthMetrics sqrt_sample retention_cohorts cols) =
    round2 (clamp (mean [num 80; num 80; num 81])) ∧
  pmf_signal (computeGrowthMetrics sqrt_sample [] cols) = num 0.
Proof.
  split.
  - apply (C8_pmf_signal sqrt_sample retention_cohorts
             ["retention_d1"; "retention_d7"; "retention_d30"]);
      discriminate.
  - apply (proj1 (C8_pmf_signal sqrt_sample []
                    ["retention_d1"; "retention_d7"; "retention_d30"])).
    by left.
Defined.

(** *** Bounds of the scores *)

Section Bounds.
Local Open Scope Q_scope.

Lemma clamp_bounds x : clamp x = NaN ∨ within_bounds (clamp x).
Proof.
  destruct x as [|[]|q].
  - by left.
  - right. exists 0. split; [done|lra].
  - right. exists 100. split; [done|lra].
  - right. unfold clamp, Math_min, Math_max, gt. simpl.
    destruct (Qle_bool (inject_Z 100) q) eqn:E1; simpl.
    + exists 100. split; [done|lra].
    + destruct (Qle_bool q (inject_Z 0)) eqn:E2; simpl.
      * exists 0. split; [done|lra].
      * exists q. split; [done|].
        apply not_true_iff_false in E1, E2.
        rewrite Qle_bool_iff in E1, E2.
        change (inject_Z 100) with 100 in E1.
        change (inject_Z 0) with 0 in E2. lra.
Qed.

Lemma round2_bounds a : within_bounds a → within_bounds (round2 a).
Proof.
  intros (q & -> & Hlo & Hhi). rewrite round2_Finite. eexists.
  split; [reflexivity|]. rewrite Qred_correct.
  assert (0 <= Qfloor (q * 100 + (1 # 2)) <= 10000)%Z as [H0 H1].
  { split.
    - change 0%Z with (Qfloor 0). apply Qfloor_resp_le. lra.
    - change 10000%Z with (Qfloor (10000 + (1 # 2))).
      apply Qfloor_resp_le. lra. }
  rewrite Zle_Qle in H0, H1.
  change (inject_Z 0) with 0 in H0. change (inject_Z 10000) with 10000 in H1.
  unfold Qdiv. change (/ 100) with (1 # 100). lra.
Qed.

Lemma round2_clamp_bounds x :
  round2 (clamp x) = NaN ∨ within_bounds (round2 (clamp x)).
Proof.
  destruct (clamp_bounds x) as [->|H]; [by left|].
  right. by apply round2_bounds.
Qed.

Lemma round2_default_bounds z :
  (0 <= z <= 100)%Z → within_bounds (round2 (num z)).
Proof.
  intros [H0 H1]. apply round2_bounds. exists (inject_Z z).
  split; [done|]. rewrite Zle_Qle in H0, H1. done.
Qed.

(** X9. What [clamp] does guarantee: every score of every result is
    either [NaN] or a finite number of [0, 100]. *)
Lemma scores_bounded_or_NaN Math_sqrt data cols :
  let r := computeGrowthMetrics Math_sqrt data cols in
  Forall (fun score => score = NaN ∨ within_bounds score)
         [growth_score r; efficiency_score r; pmf_signal r;
          scalability_index r; capital_efficiency r].
Proof.
  intros r. subst r. unfold computeGrowthMetrics.
  destruct ((length data =? 0)%nat || (length cols =? 0)%nat).
  - assert (within_bounds (num 0)) by (exists 0; split; done || lra).
    repeat (apply Forall_cons; split; [by right|]). constructor.
  - cbn [growth_score efficiency_score pmf_signal scalability_index
         capital_efficiency].
    unfold growthScore, efficiencyScore, pmfSignal, scalabilityIndex,
      capitalEfficiency. cbv zeta.
    repeat (apply Forall_cons; split;
            [repeat match goal with
                    | |- context [if ?b then _ else _] => destruct b
                    end;
             first [apply round2_clamp_bounds
                   |right; by apply round2_default_bounds] |]).
    constructor.
Qed.

End Bounds.

(** *** Finite data *)

Section FiniteData.
Local Open Scope Q_scope.

Lemma is_finite_div a q :
  is_finite a = true → is_zero q = false →
  is_finite (div a (Finite q)) = true.
Proof. destruct a; try done. intros _ H. simpl. by rewrite H. Qed.

Lemma is_finite_sum vals :
  Forall (fun v => is_finite v = true) vals → is_finite (sum vals) = true.
Proof. intros H. by destruct (sum_finite vals H) as (s & -> & _). Qed.

Lemma is_finite_mean vals :
  Forall (fun v => is_finite v = true) vals → is_finite (mean vals) = true.
Proof.
  intros H. unfold mean. destruct vals as [|v vals]; [done|].
  cbn [length Nat.eqb]. apply is_finite_div; [by apply is_finite_sum|].
  apply not_true_iff_false. rewrite is_zero_spec.
  change 0 with (inject_Z 0). rewrite inject_Z_injective.
  cbn [length]. lia.
Qed.

Lemma Qsquare_nonneg (a : Q) : 0 <= a * a.
Proof.
  destruct (Qlt_le_dec a 0) as [H|H].
  - assert (a * a == (- a) * (- a)) as -> by ring.
    apply Qmult_le_0_compat; lra.
  - by apply Qmult_le_0_compat.
Qed.

End FiniteData.

(** ** Ordering of a column's statistics *)

(** C10 (counterexample). For a column whose cells read "Infinity" and
    "-Infinity" the sum is Infinity - Infinity: the mean is [NaN], and
    neither min <= mean nor mean <= max holds. *)
Lemma C10_counterexample :
  let r := computeGrowthMetrics sqrt_sample both_infinities ["balance"] in
  ∃ d, metrics_detail r !! "balance" = Some d ∧
       ColumnMetrics.min d = Infinity true ∧
       ColumnMetrics.max d = Infinity false ∧
       ColumnMetrics.mean d = NaN ∧
       le (ColumnMetrics.min d) (ColumnMetrics.mean d) = false ∧
       le (ColumnMetrics.mean d) (ColumnMetrics.max d) = false.
Proof. eexists. by vm_compute. Qed.

Lemma last_elem_of {A} (l : list A) (x : A) : last l = Some x → x ∈ l.
Proof.
  intros H. apply last_Some in H as [l' ->].
  apply elem_of_app. right. constructor.
Qed.

(** C10 (amended). For every column present in [metrics_detail], on
    every input, the returned statistics satisfy min <= latest <= max and
    min <= max.  The mean is not part of the ordering (see the column
    above, whose mean is not a number). *)
Theorem C10_statistics_ordering Math_sqrt data cols col d :
  metrics_detail (computeGrowthMetrics Math_sqrt data cols) !! col = Some d →
  le (ColumnMetrics.min d) (ColumnMetrics.latest d) = true ∧
  le (ColumnMetrics.latest d) (ColumnMetrics.max d) = true ∧
  le (ColumnMetrics.min d) (ColumnMetrics.max d) = true.
Proof.
  intros H. apply column_of_result in H as (_ & Hne & ->).
  pose proof (columnVals_not_NaN data col) as Hnan.
  set (vals := columnVals data col) in *.
  destruct (Math_min_spec vals Hnan Hne) as [Hmin_in Hmin].
  destruct (Math_max_spec vals Hnan Hne) as [Hmax_in Hmax].
  unfold columnDetail.
  cbn [ColumnMetrics.min ColumnMetrics.max ColumnMetrics.latest].
  rewrite Forall_forall in Hmin, Hmax.
  destruct (last vals) as [x|] eqn:Hlast;
    [|by apply last_is_Some in Hne as [? ?]; congruence].
  apply last_elem_of in Hlast. cbn [default].
  assert (le (round2 (Math_min vals)) (round2 x) = true) as H1
    by (apply round2_mono, Hmin, Hlast).
  assert (le (round2 x) (round2 (Math_max vals)) = true) as H2
    by (apply round2_mono, Hmax, Hlast).
  split; [done|]. split; [done|]. by eapply le_trans.
Qed.

(** C10 (amended) on the column holding both infinities, whose mean is
    not a number: min, latest and max are ordered all the same. *)
Lemma C10_witness :
  let d := columnDetail (columnVals both_infinities "balance") in
  le (ColumnMetrics.min d) (ColumnMetrics.latest d) = true ∧
  le (ColumnMetrics.latest d) (ColumnMetrics.max d) = true ∧
  le (ColumnMetrics.min d) (ColumnMetrics.max d) = true.
Proof.
  apply (C10_statistics_ordering sqrt_sample both_infinities ["balance"]
           "balance" (columnDetail (columnVals both_infinities "balance"))).
  reflexivity.
Defined.

(** * Further properties of the engine *)

(** ** The two maps of the result *)

Lemma result_detail_lookup Math_sqrt data cols col :
  metrics_detail (computeGrowthMetrics Math_sqrt data cols) !! col =
    if decide (col ∈ cols ∧ columnVals data col ≠ [])
    then Some (columnDetail (columnVals data col)) else None.
Proof.
  destruct (decide _) as [[Hin Hne]|Hn].
  - by apply result_of_column.
  - destruct (metrics_detail _ !! col) as [d|] eqn:E; [|done].
    apply column_of_result in E as (? & ? & _). by destruct Hn.
Qed.

Lemma result_trends_lookup Math_sqrt data cols col :
  trends (computeGrowthMetrics Math_sqrt data cols) !! col =
    if decide (col ∈ cols ∧ (1 < length (columnVals data col))%nat)
    then Some (round2 <$> columnVals data col) else None.
Proof.
  unfold computeGrowthMetrics.
  destruct data as [|r data].
  { cbn [length Nat.eqb orb trends]. rewrite lookup_empty, decide_False; [done|].
    rewrite columnVals_nil. simpl. lia. }
  destruct cols as [|c cols].
  { cbn [length Nat.eqb orb trends]. rewrite lookup_empty, decide_False; [done|].
    intros [H _]. by apply elem_of_nil in H. }
  cbn [length Nat.eqb orb trends]. apply trends_lookup.
Qed.

(** X1. [metrics_detail] has an entry for a column exactly when the column
    is declared and at least one of its cells survives the coercion: an
    undeclared column never appears, and a declared column without a
    numeric cell is absent rather than present with placeholders. *)
Theorem X1_metrics_detail_keys Math_sqrt data cols col :
  is_Some (metrics_detail (computeGrowthMetrics Math_sqrt data cols) !! col) ↔
  col ∈ cols ∧ columnVals data col ≠ [].
Proof.
  rewrite result_detail_lookup. destruct (decide _) as [H|H].
  - split; [done|]. by eexists.
  - split; [by intros [? ?]|done].
Qed.

(** X2. [trends] has an entry for a column exactly when the column's
    detail carries growth rates, that is when the column is declared and
    has at least two surviving values; the entry lists every surviving
    value, rounded, in row order, so it is as long as the series. *)
Theorem X2_trends_entries Math_sqrt data cols col :
  let r := computeGrowthMetrics Math_sqrt data cols in
  let vals := columnVals data col in
  (is_Some (trends r !! col) ↔ col ∈ cols ∧ (2 <= length vals)%nat) ∧
  (is_Some (trends r !! col) ↔
   ∃ d, metrics_detail r !! col = Some d ∧
        is_Some (ColumnMetrics.growth_rates d)) ∧
  (∀ t, trends r !! col = Some t →
        t = round2 <$> vals ∧ length t = length vals).
Proof.
  intros r vals. subst r vals.
  rewrite result_trends_lookup, result_detail_lookup.
  destruct (decide (col ∈ cols ∧ (1 < length (columnVals data col))%nat))
    as [[Hin Hlen]|Hn].
  - rewrite decide_True
      by (split; [done|]; intros E; rewrite E in Hlen; simpl in Hlen; lia).
    split; [|split].
    + split; [intros _; split; [done|lia]|by eexists].
    + split; [|by eexists]. intros _. eexists. split; [done|].
      unfold columnDetail. cbn [ColumnMetrics.growth_rates].
      apply Nat.ltb_lt in Hlen. rewrite Hlen. by eexists.
    + intros t [= <-]. split; [done|]. by rewrite length_fmap.
  - split; [|split].
    + split; [by intros [? ?]|]. intros [Hin Hlen]. destruct Hn.
      split; [done|lia].
    + split; [by intros [? ?]|]. intros (d & Hd & Hg).
      destruct (decide _) as [[Hin Hne]|_]; [|done].
      injection Hd as <-. unfold columnDetail in Hg.
      cbn [ColumnMetrics.growth_rates] in Hg.
      destruct (1 <? length (columnVals data col))%nat eqn:E;
        [|by destruct Hg].
      apply Nat.ltb_lt in E. by destruct Hn.
    + done.
Qed.

(** X3. What is recorded under a column name depends on the declared
    columns only as a set: whatever the order of the declaration, and with
    or without repeated names, reading [metrics_detail] and [trends] at a
    name gives the same entry.  (The order in which the two objects
    enumerate their keys follows the declaration and is not part of the
    statement.) *)
Theorem X3_declaration_order_irrelevant Math_sqrt data cols1 cols2 :
  (∀ c, c ∈ cols1 ↔ c ∈ cols2) →
  ∀ name,
    metrics_detail (computeGrowthMetrics Math_sqrt data cols1) !! name =
      metrics_detail (computeGrowthMetrics Math_sqrt data cols2) !! name ∧
    trends (computeGrowthMetrics Math_sqrt data cols1) !! name =
      trends (computeGrowthMetrics Math_sqrt data cols2) !! name.
Proof.
  intros H c. split.
  - rewrite !result_detail_lookup.
    destruct (decide (c ∈ cols1 ∧ _)) as [[Hin Hne]|Hn].
    + rewrite decide_True; [done|]. split; [by apply H|done].
    + rewrite decide_False; [done|]. intros [Hin Hne]. apply Hn.
      split; [by apply H|done].
  - rewrite !result_trends_lookup.
    destruct (decide (c ∈ cols1 ∧ _)) as [[Hin Hne]|Hn].
    + rewrite decide_True; [done|]. split; [by apply H|done].
    + rewrite decide_False; [done|]. intros [Hin Hne]. apply Hn.
      split; [by apply H|done].
Qed.

(** X3 on a declaration and its reversal with a repeated name, read at
    "mrr". *)
Lemma X3_witness :
  metrics_detail (computeGrowthMetrics sqrt_sample two_metrics ["mrr"; "cac"])
    !! "mrr" =
    metrics_detail
      (computeGrowthMetrics sqrt_sample two_metrics ["cac"; "mrr"; "cac"])
    !! "mrr" ∧
  trends (computeGrowthMetrics sqrt_sample two_metrics ["mrr"; "cac"])
    !! "mrr" =
    trends (computeGrowthMetrics sqrt_sample two_metrics ["cac"; "mrr"; "cac"])
    !! "mrr".
Proof.
  apply (X3_declaration_order_irrelevant sqrt_sample two_metrics
           ["mrr"; "cac"] ["cac"; "mrr"; "cac"]).
  intros c. rewrite !elem_of_cons, !elem_of_nil. tauto.
Defined.

Lemma columnVals_app data1 data2 col :
  columnVals (data1 ++ data2) col =
    columnVals data1 col ++ columnVals data2 col.
Proof. unfold columnVals. apply omap_app. Qed.

(** X4. A row whose cell in a column does not coerce to a number counts
    for nothing in that column: with or without the row, wherever it
    stands, the column has the same statistics and the same trend. *)
Theorem X4_non_numeric_row_ignored Math_sqrt before r after cols col :
  isNaN (Number (cell r col)) = true →
  metrics_detail (computeGrowthMetrics Math_sqrt (before ++ r :: after) cols)
    !! col =
  metrics_detail (computeGrowthMetrics Math_sqrt (before ++ after) cols)
    !! col ∧
  trends (computeGrowthMetrics Math_sqrt (before ++ r :: after) cols) !! col =
  trends (computeGrowthMetrics Math_sqrt (before ++ after) cols) !! col.
Proof.
  intros H.
  assert (columnVals (before ++ r :: after) col
          = columnVals (before ++ after) col) as E.
  { rewrite !columnVals_app. f_equal. unfold columnVals.
    cbn [omap list_omap]. by rewrite H. }
  by rewrite !result_detail_lookup, !result_trends_lookup, E.
Qed.

(** X4 on the row of [two_metrics] whose mrr cell reads "n/a". *)
Lemma X4_witness :
  let r := row [("mrr", JSString "n/a"); ("cac", JSNull)] in
  let before := [row [("mrr", JSInt 100); ("cac", JSInt 40)]] in
  let after := [row [("mrr", JSInt 125); ("cac", JSString "50")]] in
  metrics_detail
    (computeGrowthMetrics sqrt_sample (before ++ r :: after) ["mrr"; "cac"])
    !! "mrr" =
  metrics_detail
    (computeGrowthMetrics sqrt_sample (before ++ after) ["mrr"; "cac"])
    !! "mrr" ∧
  trends
    (computeGrowthMetrics sqrt_sample (before ++ r :: after) ["mrr"; "cac"])
    !! "mrr" =
  trends (computeGrowthMetrics sqrt_sample (before ++ after) ["mrr"; "cac"])
    !! "mrr".
Proof.
  apply (X4_non_numeric_row_ignored sqrt_sample
           [row [("mrr", JSInt 100); ("cac", JSInt 40)]]
           (row [("mrr", JSString "n/a"); ("cac", JSNull)])
           [row [("mrr", JSInt 125); ("cac", JSString "50")]]
           ["mrr"; "cac"] "mrr").
  reflexivity.
Defined.

Lemma filter_all {A} (P : A → Prop) `{!∀ x, Decision (P x)} (l : list A) :
  Forall P l → filter P l = l.
Proof.
  induction 1 as [|x l Hx _ IH]; [done|].
  by rewrite filter_cons_True, IH.
Qed.

Lemma adjacent_length {A} (vals : list A) :
  length (adjacent vals) = (length vals - 1)%nat.
Proof.
  unfold adjacent. rewrite length_zip_with.
  destruct vals; cbn [tail length]; lia.
Qed.

Lemma adjacent_firsts {A} (P : A → Prop) (vals : list A) :
  Forall P vals → Forall (fun p => P p.1) (adjacent vals).
Proof.
  induction 1 as [|v vals Hv Hvals IH]; [constructor|].
  destruct vals as [|w rest]; [constructor|].
  unfold adjacent in *. cbn [tail zip_with]. by constructor.
Qed.

(** X5. A column with n surviving values has at most n - 1 growth rates,
    one for each adjacent pair whose first value is not zero; it has
    exactly n - 1 when no surviving value is zero. *)
Theorem X5_growth_rates_count Math_sqrt data cols col d rates :
  metrics_detail (computeGrowthMetrics Math_sqrt data cols) !! col = Some d →
  ColumnMetrics.growth_rates d = Some rates →
  let vals := columnVals data col in
  (length rates <= length vals - 1)%nat ∧
  (Forall (fun v => strict_ne v (num 0) = true) vals →
   length rates = (length vals - 1)%nat).
Proof.
  intros Hd Hr vals. apply column_of_result in Hd as (_ & _ & ->).
  fold vals in Hr. unfold columnDetail in Hr.
  cbn [ColumnMetrics.growth_rates] in Hr.
  destruct (1 <? length vals)%nat; [|done]. injection Hr as <-.
  rewrite length_map, pctChanges_adjacent, length_fmap.
  rewrite <- (adjacent_length vals). split.
  - apply length_filter.
  - intros Hnz. f_equal. apply filter_all.
    by apply (adjacent_firsts (fun v => strict_ne v (num 0) = true)).
Qed.

(** X5 on the column 100, n/a, 125 of [two_metrics]: one rate. *)
Lemma X5_witness :
  let vals := columnVals two_metrics "mrr" in
  (length [num 25] <= length vals - 1)%nat ∧
  (Forall (fun v => strict_ne v (num 0) = true) vals →
   length [num 25] = (length vals - 1)%nat).
Proof.
  apply (X5_growth_rates_count sqrt_sample two_metrics ["mrr"; "cac"] "mrr"
           (columnDetail (columnVals two_metrics "mrr")));
    reflexivity.
Defined.

(** ** The scores the specification leaves to the code *)

Section MoreScores.
Local Open Scope Q_scope.

Lemma clamp_Finite q :
  clamp (Finite q) =
    if Qle_bool 100 q then num 100
    else if Qle_bool q 0 then num 0 else Finite q.
Proof.
  unfold clamp, Math_min, Math_max, gt. simpl.
  change (inject_Z 100) with 100. change (inject_Z 0) with 0.
  destruct (Qle_bool 100 q) eqn:E1; simpl; [done|].
  by destruct (Qle_bool q 0).
Qed.

Lemma clamp_above q : 100 <= q → clamp (Finite q) = num 100.
Proof.
  intros H. rewrite clamp_Finite.
  by apply Qle_bool_iff in H as ->.
Qed.

Lemma clamp_below q : q <= 0 → clamp (Finite q) = num 0.
Proof.
  intros H. rewrite clamp_Finite.
  destruct (Qle_bool 100 q) eqn:E.
  - apply Qle_bool_iff in E. lra.
  - by apply Qle_bool_iff in H as ->.
Qed.

Lemma clamp_inside q : 0 <= q <= 100 → round2 (clamp (Finite q)) = round2 (Finite q).
Proof.
  intros [H0 H1]. rewrite clamp_Finite.
  destruct (Qle_bool 100 q) eqn:E1.
  - apply Qle_bool_iff in E1. apply round2_proper.
    change (inject_Z 100) with 100. lra.
  - destruct (Qle_bool q 0) eqn:E2; [|done].
    apply Qle_bool_iff in E2. apply round2_proper.
    change (inject_Z 0) with 0. lra.
Qed.

(** X6. The growth score is 50 when no growth column has a growth rate;
    otherwise, with g the mean of the collected average growth rates, it
    is 50 + 2g rounded to two decimals while g is between -25 and 25, it
    stays at 100 for every g from 25 upwards and at 0 for every g from
    -25 downwards.  The rates are collected from the revenue bucket when
    it is not empty, else from the user bucket when that is not empty,
    else from the first two declared columns. *)
Theorem X6_growth_score Math_sqrt data cols :
  data ≠ [] → cols ≠ [] →
  let r := computeGrowthMetrics Math_sqrt data cols in
  let cls := classifyColumns cols in
  let rates := growthRates (metrics_detail r) cols in
  (rates = [] → growth_score r = num 50) ∧
  (∀ g, rates ≠ [] → mean rates = Finite g →
     (25 <= g → growth_score r = num 100) ∧
     (g <= -25 → growth_score r = num 0) ∧
     (-25 <= g <= 25 → growth_score r = round2 (Finite (50 + 2 * g)))) ∧
  growthCols cols =
    (if decide (revenue cls ≠ []) then revenue cls
     else if decide (user cls ≠ []) then user cls else take 2 cols).
Proof.
  intros Hd Hc r cls rates. subst r rates.
  rewrite computeGrowthMetrics_main by done.
  cbn [growth_score metrics_detail]. unfold growthScore.
  split; [|split].
  - intros ->. by vm_compute.
  - intros g Hne Hg. apply length_eqb_cons in Hne. rewrite Hne, Hg.
    cbn [negb add mul num]. unfold fin.
    assert (Qred (inject_Z 50 + Qred (g * inject_Z 2)) == 50 + 2 * g) as E.
    { rewrite !Qred_correct. change (inject_Z 50) with 50.
      change (inject_Z 2) with 2. ring. }
    split; [|split]; intros H.
    + rewrite clamp_above by (rewrite E; lra). by vm_compute.
    + rewrite clamp_below by (rewrite E; lra). by vm_compute.
    + rewrite clamp_inside by (rewrite E; lra). by apply round2_proper.
  - unfold growthCols. fold cls.
    destruct (revenue cls) as [|? ?]; [|done].
    by destruct (user cls).
Qed.

(** X6 on a revenue column that grows from 100 to 125: the rate is 25
    and the score 100. *)
Lemma X6_witness :
  let r := computeGrowthMetrics sqrt_sample quarter_growth ["revenue"] in
  mean (growthRates (metrics_detail r) ["revenue"]) = num 25 ∧
  growth_score r = num 100.
Proof.
  split; [reflexivity|].
  refine (proj1 (proj1 (proj2 (X6_growth_score sqrt_sample quarter_growth
                                 ["revenue"] _ _)) 25 _ _) _);
    try discriminate; try reflexivity.
Defined.





End MoreScores.

(** ** Datasets without a numeric cell *)

Lemma sumOver_empty field cols : sumOver ∅ field cols = num 0.
Proof.
  unfold sumOver. induction cols as [|c cols IH]; [done|].
  cbn [fold_left]. by rewrite lookup_empty.
Qed.

Lemma latestOf_empty cols : latestOf ∅ cols = [].
Proof.
  unfold latestOf. induction cols as [|c cols IH]; [done|].
  cbn [omap list_omap]. by rewrite lookup_empty.
Qed.

Lemma Math_max_zeros (n : nat) : Math_max (replicate (S n) (num 0)) = num 0.
Proof.
  unfold Math_max.
  assert (existsb isNaN (replicate (S n) (num 0)) = false) as ->.
  { induction n as [|n IH]; [done|]. by cbn [replicate existsb isNaN orb] in *. }
  cbn [replicate fold_left]. change (if gt (num 0) (Infinity true) then _ else _)
    with (num 0).
  induction n as [|n IH]; [done|]. cbn [replicate fold_left].
  by change (if gt (num 0) (num 0) then num 0 else num 0) with (num 0).
Qed.

Lemma maxGrowth_empty cols : cols ≠ [] → maxGrowth ∅ cols = num 0.
Proof.
  intros Hne. unfold maxGrowth.
  assert (map (fun c : string =>
                 default (num 0)
                   ((∅ : gmap string ColumnMetrics.t) !! c
                      ≫= ColumnMetrics.avg_growth_rate)) cols
          = replicate (length cols) (num 0)) as ->.
  { induction cols as [|c cols IH]; [done|]. cbn [map length replicate].
    rewrite lookup_empty. f_equal. destruct cols; [done|]. by apply IH. }
  destruct cols as [|c cols]; [done|]. apply Math_max_zeros.
Qed.

(** X11. When the rows and the declared columns are not empty but no
    declared column has a cell that coerces to a number, the engine does
    not take the degenerate path: it returns the fallback of every score
    (50, 65, 55, 60, 55) with empty maps, whatever the column names
    are. *)
Theorem X11_no_numeric_cell Math_sqrt data cols :
  data ≠ [] → cols ≠ [] →
  (∀ col, col ∈ cols → columnVals data col = []) →
  computeGrowthMetrics Math_sqrt data cols = defaultResult.
Proof.
  intros Hd Hc Hnone.
  pose proof (result_detail_lookup Math_sqrt data cols) as Hmd.
  pose proof (result_trends_lookup Math_sqrt data cols) as Htr.
  rewrite computeGrowthMetrics_main in * by done.
  cbn [metrics_detail trends] in Hmd, Htr. cbv zeta.
  assert ((columnStats data cols).1 = ∅) as ->.
  { apply map_eq. intros c. rewrite Hmd, lookup_empty.
    apply decide_False. intros [Hin Hne]. by apply Hne, Hnone. }
  assert ((columnStats data cols).2 = ∅) as ->.
  { apply map_eq. intros c. rewrite Htr, lookup_empty.
    apply decide_False. intros [Hin Hlen]. rewrite Hnone in Hlen by done.
    simpl in Hlen. lia. }
  unfold defaultResult. cbv zeta. f_equal.
  - unfold growthScore. by rewrite growthRates_empty.
  - unfold efficiencyScore. rewrite !sumOver_empty.
    by destruct (_ && _).
  - unfold pmfSignal. cbv zeta.
    rewrite !latestOf_empty, growthRates_empty.
    cbn [length Nat.eqb negb].
    repeat match goal with
           | |- context [if ?b then _ else _] => destruct b
           end; reflexivity.
  - unfold scalabilityIndex. cbv zeta.
    destruct (negb (length (revenue _) =? 0)%nat) eqn:Hr; [|done].
    destruct (negb (length (cost _) =? 0)%nat) eqn:Hco; [|done].
    apply negb_true_iff, length_eqb_cons in Hr, Hco.
    by rewrite !maxGrowth_empty.
  - unfold capitalEfficiency. rewrite !sumOver_empty.
    by destruct (_ && _).
Qed.

(** X11 on two columns, revenue and churn, whose cells are all text. *)
Lemma X11_witness :
  computeGrowthMetrics sqrt_sample no_numbers ["revenue"; "churn"]
  = defaultResult.
Proof.
  apply (X11_no_numeric_cell sqrt_sample no_numbers ["revenue"; "churn"]);
    try discriminate.
  intros col Hin. apply elem_of_cons in Hin as [->|Hin]; [reflexivity|].
  apply elem_of_cons in Hin as [->|Hin]; [reflexivity|].
  by apply elem_of_nil in Hin.
Defined.

(** ** The numeric helpers *)

Section Helpers.
Local Open Scope Q_scope.

(** X14. [clamp] is the projection on [0, 100]: it returns 0 for a
    number that is at most 0 and for -Infinity, 100 for a number that is
    at least 100 and for +Infinity, the number itself strictly between,
    and [NaN] for [NaN]; clamping a clamped value changes nothing. *)
Theorem X14_clamp_projection :
  clamp NaN = NaN ∧
  clamp (Infinity true) = num 0 ∧ clamp (Infinity false) = num 100 ∧
  (∀ q, (q <= 0 → clamp (Finite q) = num 0) ∧
        (100 <= q → clamp (Finite q) = num 100) ∧
        (0 < q < 100 → clamp (Finite q) = Finite q)) ∧
  (∀ x, clamp (clamp x) = clamp x).
Proof.
  split; [done|]. split; [done|]. split; [done|]. split.
  - intros q. split; [apply clamp_below|]. split; [apply clamp_above|].
    intros [H0 H1]. rewrite clamp_Finite.
    destruct (Qle_bool 100 q) eqn:E1; [apply Qle_bool_iff in E1; lra|].
    destruct (Qle_bool q 0) eqn:E2; [apply Qle_bool_iff in E2; lra|done].
  - intros [|[]|q]; try done. rewrite (clamp_Finite q).
    destruct (Qle_bool 100 q) eqn:E1; [done|].
    destruct (Qle_bool q 0) eqn:E2; [done|].
    rewrite clamp_Finite. by rewrite E1, E2.
Qed.

Lemma squares_sum arr m acc :
  Forall (fun v => is_finite v = true) arr →
  ∃ s, fold_left (fun sum v => add sum (mul (sub v (Finite m))
                                            (sub v (Finite m))))
                 arr (Finite acc) = Finite s ∧
       s == acc + Qsum ((fun x => (to_Q x - m) * (to_Q x - m)) <$> arr).
Proof.
  intros Harr. revert acc.
  induction Harr as [|v arr Hv _ IH]; intros acc.
  - exists acc. split; [done|]. unfold Qsum. simpl. lra.
  - destruct v as [| |x]; try done. cbn [fold_left sub neg add mul].
    unfold fin.
    destruct (IH (Qred (acc + Qred (Qred (x + Qred (- m))
                                    * Qred (x + Qred (- m))))))
      as (s & Hs & Heq).
    exists s. split; [done|]. rewrite Heq, fmap_cons, !Qred_correct.
    unfold Qsum. cbn [foldr to_Q]. ring.
Qed.

Lemma Qsum_squares_nonneg (f : number → Q) (arr : list number) :
  0 <= Qsum ((fun x => f x * f x) <$> arr).
Proof.
  induction arr as [|x arr IH]; [unfold Qsum; simpl; lra|].
  rewrite fmap_cons. unfold Qsum in *. cbn [foldr].
  pose proof (Qsquare_nonneg (f x)). lra.
Qed.

(** X16. [std] is 0 for a series of fewer than two values.  For a longer
    series of finite values it is the square root of the population
    variance, the mean of the squared deviations from the mean of the
    series, which is never negative. *)
Theorem X16_std_population_variance Math_sqrt (arr : list number) :
  ((length arr < 2)%nat → std Math_sqrt arr = num 0) ∧
  ((2 <= length arr)%nat → Forall (fun v => is_finite v = true) arr →
   ∃ m v, mean arr = Finite m ∧
          v == Qsum ((fun x => (to_Q x - m) * (to_Q x - m)) <$> arr)
               / inject_Z (Z.of_nat (length arr)) ∧
          0 <= v ∧
          std Math_sqrt arr = Math_sqrt (Finite v)).
Proof.
  unfold std. split.
  - intros H. apply Nat.ltb_lt in H. by rewrite H.
  - intros Hlen Harr. apply Nat.ltb_ge in Hlen as Hlt. rewrite Hlt.
    pose proof (is_finite_mean arr Harr) as Hm.
    destruct (mean arr) as [| |m]; try done. cbv zeta.
    change (num 0) with (Finite 0).
    destruct (squares_sum arr m 0 Harr) as (s & -> & Hs).
    unfold length_number, num. cbn [div].
    assert (0 < inject_Z (Z.of_nat (length arr))) as Hn.
    { change 0 with (inject_Z 0). rewrite <- Zlt_Qlt. lia. }
    destruct (is_zero _) eqn:Ez; [apply is_zero_spec in Ez; lra|].
    exists m, (Qred (s / inject_Z (Z.of_nat (length arr)))).
    assert (s == Qsum ((fun x => (to_Q x - m) * (to_Q x - m)) <$> arr))
      as Hs' by (rewrite Hs; ring).
    split; [done|]. split; [|split; [|done]].
    + by rewrite Qred_correct, Hs'.
    + rewrite Qred_correct, Hs'. apply Qle_shift_div_l; [done|].
      pose proof (Qsum_squares_nonneg (fun x => to_Q x - m) arr) as Hsq.
      cbv beta in Hsq. lra.
Qed.

(** X16 on the series 2, 4, 4, 4, 5, 5, 7, 9: mean 5, variance 4, and
    with the sample square root a deviation of 2. *)
Lemma X16_witness :
  let arr := [num 2; num 4; num 4; num 4; num 5; num 5; num 7; num 9] in
  (∃ m v, mean arr = Finite m ∧
          v == Qsum ((fun x => (to_Q x - m) * (to_Q x - m)) <$> arr)
               / inject_Z (Z.of_nat (length arr)) ∧
          0 <= v ∧
          std sqrt_sample arr = sqrt_sample (Finite v)) ∧
  std sqrt_sample arr = num 2.
Proof.
  split; [|reflexivity].
  apply (proj2 (X16_std_population_variance sqrt_sample
                  [num 2; num 4; num 4; num 4; num 5; num 5; num 7; num 9])).
  - simpl. lia.
  - repeat constructor.
Defined.

(** X17. The percent change of a pair of finite values whose first value
    is not zero is (cur - prev) / |prev| * 100: because of the absolute
    value it is positive exactly when the value went up and zero exactly
    when it stayed, also from a negative first value. *)
Theorem X17_percent_change_sign (prev cur : Q) :
  ¬ prev == 0 →
  ∃ rate, pctChange (Finite prev, Finite cur) = Finite rate ∧
          rate == (cur - prev) / Qabs prev * 100 ∧
          (0 < rate ↔ prev < cur) ∧ (rate == 0 ↔ cur == prev).
Proof.
  intros Hp.
  assert (0 < Qabs prev) as Habs.
  { destruct (Qlt_le_dec 0 (Qabs prev)) as [|H]; [done|]. exfalso. apply Hp.
    pose proof (Qabs_nonneg prev).
    apply Qabs_Qle_condition in H as [H1 H2].
    apply Qle_antisym; [done|]. assert (- 0 == 0) as E by reflexivity.
    by rewrite E in H1. }
  assert (is_zero (Qred (Qabs prev)) = false) as Hz.
  { apply not_true_iff_false. rewrite is_zero_spec, Qred_correct. lra. }
  unfold pctChange. cbn [fst snd sub neg add Math_abs]. unfold fin.
  cbn [div]. rewrite Hz. unfold fin, num. cbn [mul]. unfold fin.
  eexists. split; [reflexivity|].
  assert (Qred (Qred (Qred (cur + Qred (- prev)) / Qred (Qabs prev))
                * inject_Z 100)
          == (cur - prev) / Qabs prev * 100) as E.
  { rewrite !Qred_correct. change (inject_Z 100) with 100. field. lra. }
  split; [exact E|]. rewrite E.
  assert (0 < / Qabs prev) as Hinv by (by apply Qinv_lt_0_compat).
  unfold Qdiv. set (d := / Qabs prev) in *.
  split; split; intros H.
  - destruct (Qlt_le_dec prev cur) as [|Hle]; [done|]. exfalso.
    assert (0 <= (prev - cur) * d) by (apply Qmult_le_0_compat; lra).
    assert ((cur - prev) * d * 100 == - ((prev - cur) * d) * 100) as E'
      by ring.
    rewrite E' in H. lra.
  - assert (0 < (cur - prev) * d) by (apply Qmult_lt_0_compat; lra). lra.
  - destruct (Qeq_dec cur prev) as [|Hne]; [done|]. exfalso.
    assert ((cur - prev) * d == 0) as H0 by lra.
    apply Qmult_integral in H0 as [H0|H0]; [apply Hne|]; lra.
  - rewrite H. ring.
Qed.

(** X17 on a loss that halves from -50 to -25: a change of +50. *)
Lemma X17_witness :
  ∃ rate, pctChange (num (-50), num (-25)) = Finite rate ∧
          rate == (-25 - -50) / Qabs (-50) * 100 ∧
          (0 < rate ↔ -50 < -25) ∧ (rate == 0 ↔ -25 == -50).
Proof.
  apply (X17_percent_change_sign (-50) (-25)). discriminate.
Defined.

End Helpers.

(** ** Buckets and branches *)

Lemma churn_is_retention c :
  substring "churn" c → matches retention_keywords c.
Proof.
  intros H. exists "churn"%string. split; [|done].
  unfold retention_keywords. rewrite !elem_of_cons. auto.
Qed.

(** X18. Every declared column whose name contains "churn" is in the
    retention bucket, so the churn columns that the PMF signal reads from
    the declared list are exactly the churn columns of the retention
    bucket, and the pure retention columns and the churn columns together
    are the retention bucket, each column once. *)
Theorem X18_retention_bucket_split (cols : list string) :
  let cls := classifyColumns cols in
  let pure := List.filter (fun c => negb (includes c "churn")) (retention cls) in
  let churn := List.filter (fun c => includes c "churn") cols in
  (∀ c, c ∈ churn → c ∈ retention cls) ∧
  churn = filter (substring "churn") (retention cls) ∧
  pure ++ churn ≡ₚ retention cls.
Proof.
  intros cls pure churn. subst pure churn.
  rewrite churn_columns, pure_retention_columns.
  assert (retention cls = filter (matches retention_keywords) cols) as Hret
    by apply classify_bucket.
  assert (filter (substring "churn") cols
          = filter (substring "churn") (retention cls)) as Hchurn.
  { rewrite Hret, list_filter_filter. apply list_filter_iff.
    intros c. split; [|by intros [? _]].
    intros H. split; [done|]. by apply churn_is_retention. }
  split; [|split; [done|]].
  - intros c. rewrite Hchurn, list_elem_of_filter. by intros [_ ?].
  - rewrite Hchurn, Permutation_app_comm. apply filter_app_complement.
Qed.

(** ** Column detection and the engine *)

Lemma isNumericCell_survives v :
  isNumericCell v = true → v ≠ JSNumber NaN → isNaN (Number v) = false.
Proof.
  destruct v as [| | |n|s]; try done.
  - intros _ Hn. destruct n; [done|done|done].
  - simpl. intros H _. apply andb_true_iff in H as [H _].
    by apply negb_true_iff in H.
Qed.

(** X19. Every column that [parseFile] detects as numeric gets
    statistics from the engine when the engine is run on the same records
    with the detected columns, provided no cell of the column is the
    number [NaN] (which neither the parsers nor JSON produce): detection
    guarantees a cell that survives the engine's coercion. *)
Theorem X19_detected_column_has_statistics Math_sqrt records columns col :
  col ∈ detectNumericCols records columns →
  (∀ r, r ∈ records → cell r col ≠ JSNumber NaN) →
  col ∈ columns ∧
  is_Some (metrics_detail
             (computeGrowthMetrics Math_sqrt records
                (detectNumericCols records columns)) !! col).
Proof.
  intros Hin Hnan.
  pose proof Hin as Hdet. unfold detectNumericCols in Hdet.
  apply list_elem_of_In, filter_In in Hdet as [Hcol Hex].
  apply existsb_exists in Hex as (r & Hr & Hcell).
  apply list_elem_of_In in Hr, Hcol. split; [done|].
  rewrite result_detail_lookup, decide_True; [by eexists|].
  split; [done|]. intros Hempty.
  assert (Number (cell r col) ∈ columnVals records col) as Hmem.
  { unfold columnVals. apply list_elem_of_omap. exists r. split; [done|].
    by rewrite (isNumericCell_survives _ Hcell (Hnan r Hr)). }
  rewrite Hempty in Hmem. by apply elem_of_nil in Hmem.
Qed.

(** X19 on a file with the columns month, mrr and notes: only mrr is
    detected, and it has statistics. *)
Lemma X19_witness :
  detectNumericCols parsed_file ["month"; "mrr"; "notes"] = ["mrr"] ∧
  is_Some (metrics_detail
             (computeGrowthMetrics sqrt_sample parsed_file ["mrr"]) !! "mrr").
Proof.
  split; [reflexivity|].
  refine (proj2 (X19_detected_column_has_statistics sqrt_sample parsed_file
                   ["month"; "mrr"; "notes"] "mrr" _ _)).
  - repeat constructor.
  - intros r Hr. apply elem_of_cons in Hr as [->|Hr]; [discriminate|].
    apply elem_of_cons in Hr as [->|Hr]; [discriminate|].
    by apply elem_of_nil in Hr.
Defined.

(** X20. The period column is the first column, in file order, whose
    name contains one of the period keywords: no column before it
    matches; and there is no period column exactly when no column
    matches. *)
Theorem X20_period_column_is_first_match (columns : list string) :
  match detectPeriodCol columns with
  | Some c =>
      ∃ before after, columns = before ++ c :: after ∧
        matches periodKeywords c ∧
        Forall (fun x => ¬ matches periodKeywords x) before
  | None => Forall (fun x => ¬ matches periodKeywords x) columns
  end.
Proof.
  unfold detectPeriodCol.
  induction columns as [|x columns IH]; [constructor|].
  cbn [find].
  destruct (existsb (fun kw => includes x kw) periodKeywords) eqn:E.
  - exists [], columns. split; [done|]. split; [|constructor].
    by apply existsb_includes.
  - assert (¬ matches periodKeywords x) as Hx.
    { rewrite <- existsb_includes. by rewrite E. }
    destruct (find _ columns) as [c|].
    + destruct IH as (before & after & -> & Hc & Hbefore).
      exists (x :: before), after. split; [done|]. split; [done|].
      by constructor.
    + by constructor.
Qed.

(** ** Order and locality *)

Lemma clamp_mono a b : le a b = true → le (clamp a) (clamp b) = true.
Proof.
  destruct a as [|[]|p], b as [|[]|q]; try done.
  - intros _. destruct (clamp_bounds (Finite q)) as [E|(x & -> & Hx)].
    + by rewrite clamp_Finite in E;
        destruct (Qle_bool 100 q), (Qle_bool q 0).
    + apply (le_Finite 0 x), Hx.
  - intros _. destruct (clamp_bounds (Finite p)) as [E|(x & -> & Hx)].
    + by rewrite clamp_Finite in E;
        destruct (Qle_bool 100 p), (Qle_bool p 0).
    + apply (le_Finite x 100), Hx.
  - rewrite le_Finite. intros H. rewrite !clamp_Finite.
    destruct (Qle_bool 100 p) eqn:P1, (Qle_bool 100 q) eqn:Q1;
      try destruct (Qle_bool p 0) eqn:P2;
      try destruct (Qle_bool q 0) eqn:Q2;
      unfold num; rewrite le_Finite;
      repeat match goal with
             | H : Qle_bool _ _ = true |- _ => apply Qle_bool_iff in H
             | H : Qle_bool _ _ = false |- _ =>
                 apply not_true_iff_false in H; rewrite Qle_bool_iff in H
             end;
      change (inject_Z 100) with 100%Q; change (inject_Z 0) with 0%Q; lra.
Qed.

(** X21. Clamping and rounding keep the order: of two raw values the
    larger never gets the smaller score. *)
Theorem X21_score_order_preserved (a b : number) :
  le a b = true →
  le (clamp a) (clamp b) = true ∧
  le (round2 a) (round2 b) = true ∧
  le (round2 (clamp a)) (round2 (clamp b)) = true.
Proof.
  intros H. split; [by apply clamp_mono|].
  split; [by apply round2_mono|]. by apply round2_mono, clamp_mono.
Qed.

(** X21 on the raw values 49.994 and 120. *)
Lemma X21_witness :
  le (clamp (fin (49994 # 1000))) (clamp (num 120)) = true ∧
  le (round2 (fin (49994 # 1000))) (round2 (num 120)) = true ∧
  le (round2 (clamp (fin (49994 # 1000)))) (round2 (clamp (num 120))) = true.
Proof.
  apply (X21_score_order_preserved (fin (49994 # 1000)) (num 120)).
  reflexivity.
Defined.

(** X22. Every point of a column's trend lies between the min and the
    max of the column's statistics. *)
Theorem X22_trend_within_min_max Math_sqrt data cols col d t point :
  let r := computeGrowthMetrics Math_sqrt data cols in
  metrics_detail r !! col = Some d → trends r !! col = Some t →
  point ∈ t →
  le (ColumnMetrics.min d) point = true ∧
  le point (ColumnMetrics.max d) = true.
Proof.
  intros r Hd Ht Hp. subst r.
  apply column_of_result in Hd as (_ & Hne & ->).
  rewrite result_trends_lookup in Ht.
  destruct (decide _) as [_|_]; [|done]. injection Ht as <-.
  apply list_elem_of_fmap in Hp as (v & -> & Hv).
  pose proof (columnVals_not_NaN data col) as Hnan.
  destruct (Math_min_spec _ Hnan Hne) as [_ Hmin].
  destruct (Math_max_spec _ Hnan Hne) as [_ Hmax].
  rewrite Forall_forall in Hmin, Hmax.
  unfold columnDetail. cbn [ColumnMetrics.min ColumnMetrics.max].
  split; apply round2_mono; auto.
Qed.

(** X22 on the second point of the slowly growing column. *)
Lemma X22_witness :
  let d := columnDetail (columnVals slow_growth "visits") in
  le (ColumnMetrics.min d) (num 1000045) = true ∧
  le (num 1000045) (ColumnMetrics.max d) = true.
Proof.
  apply (X22_trend_within_min_max sqrt_sample slow_growth ["visits"] "visits"
           (columnDetail (columnVals slow_growth "visits"))
           [num 1000000; num 1000045; num 1000090; num 1000160]).
  - reflexivity.
  - reflexivity.
  - apply elem_of_cons. right. apply elem_of_cons. by left.
Defined.

Lemma columnVals_ext data1 data2 col :
  (fun r => cell r col) <$> data1 = (fun r => cell r col) <$> data2 →
  columnVals data1 col = columnVals data2 col.
Proof.
  revert data2. induction data1 as [|r1 data1 IH]; intros [|r2 data2] H;
    try done.
  rewrite !fmap_cons in H. injection H as Hcell Hrest.
  unfold columnVals in *. cbn [omap list_omap]. rewrite Hcell.
  by rewrite (IH data2 Hrest).
Qed.

(** X23. The result depends on the rows only through the cells of the
    declared columns: two datasets that agree, row by row, on the cells
    of every declared column have the same result, whatever else their
    rows hold. *)
Theorem X23_undeclared_cells_ignored Math_sqrt data1 data2 cols :
  (∀ col, col ∈ cols →
     (fun r => cell r col) <$> data1 = (fun r => cell r col) <$> data2) →
  computeGrowthMetrics Math_sqrt data1 cols =
  computeGrowthMetrics Math_sqrt data2 cols.
Proof.
  intros H. destruct cols as [|c cols].
  { unfold computeGrowthMetrics. cbn [length Nat.eqb]. by rewrite !orb_true_r. }
  assert (length data1 = length data2) as Hlen.
  { rewrite <- (length_fmap (fun r => cell r c) data1), H, length_fmap;
      [done|]. apply elem_of_cons. by left. }
  assert (columnStats data1 (c :: cols) = columnStats data2 (c :: cols)) as E.
  { rewrite (surjective_pairing (columnStats data1 _)),
      (surjective_pairing (columnStats data2 _)).
    f_equal; apply map_eq; intros k.
    - rewrite !metricsDetail_lookup.
      destruct (decide (k ∈ c :: cols)) as [Hk|Hk].
      + by rewrite (columnVals_ext data1 data2 k (H k Hk)).
      + rewrite !decide_False; [done| |]; by intros [? _].
    - rewrite !trends_lookup.
      destruct (decide (k ∈ c :: cols)) as [Hk|Hk].
      + by rewrite (columnVals_ext data1 data2 k (H k Hk)).
      + rewrite !decide_False; [done| |]; by intros [? _]. }
  unfold computeGrowthMetrics. by rewrite Hlen, E.
Qed.

(** X23 on [two_metrics] and the same rows with an undeclared column
    added. *)
Lemma X23_witness :
  computeGrowthMetrics sqrt_sample two_metrics ["mrr"] =
  computeGrowthMetrics sqrt_sample
    ((fun r => <["comment" := JSString "x"]> r) <$> two_metrics) ["mrr"].
Proof.
  apply (X23_undeclared_cells_ignored sqrt_sample two_metrics
           ((fun r => <["comment" := JSString "x"]> r) <$> two_metrics)
           ["mrr"]).
  intros col Hin. apply elem_of_cons in Hin as [->|Hin]; [reflexivity|].
  by apply elem_of_nil in Hin.
Defined.
